(** * Update agent (src/ai_agent.py): a shallow embedding of [main]

    The script reads its configuration from the environment, picks a
    Gemini model, reads two web files, sends a prompt, and applies the
    file blocks of the model's reply to the working directory.

    Strings are Stdlib [string]s whose characters stand for the code points
    0..255 of a Python [str]. *)

From Stdlib Require Import String Ascii List Bool ZArith Lia.
Import ListNotations.
Open Scope string_scope.

(** ** Python string primitives *)

(** [str.isspace] restricted to the code points 0..255: the ASCII
    whitespace 9..13 and 32, the separators 28..31, NEL (133) and NBSP (160). *)
Definition is_space (c : ascii) : bool :=
  let n := nat_of_ascii c in
  ((9 <=? n) && (n <=? 13))%nat || ((28 <=? n) && (n <=? 32))%nat
  || (n =? 133)%nat || (n =? 160)%nat.

Fixpoint lstrip (s : string) : string :=
  match s with
  | EmptyString => EmptyString
  | String c s' => if is_space c then lstrip s' else s
  end.

Fixpoint rstrip (s : string) : string :=
  match s with
  | EmptyString => EmptyString
  | String c s' =>
      let r := rstrip s' in
      if is_space c && String.eqb r EmptyString then EmptyString else String c r
  end.

(** [s.strip()] *)
Definition strip (s : string) : string := rstrip (lstrip s).

(** [s.startswith(p)] *)
Fixpoint startswith (p s : string) : bool :=
  match p, s with
  | EmptyString, _ => true
  | String c p', String d s' => Ascii.eqb c d && startswith p' s'
  | String _ _, EmptyString => false
  end.

(** [s.split(sep)] for a non-empty [sep]: the pieces between the
    non-overlapping occurrences of [sep], scanned left to right. [cur] is
    the piece being read; [skip] counts the characters of a separator
    just matched that remain to be passed over. *)
Fixpoint split_go (sep s cur : string) (skip : nat) : list string :=
  match skip with
  | S k =>
      match s with
      | EmptyString => [cur]
      | String _ s' => split_go sep s' cur k
      end
  | O =>
      match s with
      | EmptyString => [cur]
      | String c s' =>
          if startswith sep s then cur :: split_go sep s' EmptyString (pred (String.length sep))
          else split_go sep s' (cur ++ String c EmptyString) 0
      end
  end.

Definition py_split (sep s : string) : list string := split_go sep s EmptyString 0.

(** [sep.join(xs)] *)
Fixpoint py_join (sep : string) (xs : list string) : string :=
  match xs with
  | [] => EmptyString
  | [x] => x
  | x :: xs' => x ++ sep ++ py_join sep xs'
  end.

Definition nl : string := String (ascii_of_nat 10) EmptyString.

(** ** Step 5 of [main]: parse and apply changes (lines 110-133) *)

Record scan_state := mk_scan {
  current_file : option string;   (* [None] is Python's [None] *)
  code_block_active : bool;
  buffer : list string
}.

Definition scan_init : scan_state := mk_scan None false [].

(** Truth value of [current_file] in [... and current_file]. *)
Definition truthy (o : option string) : bool :=
  match o with
  | Some s => negb (String.eqb s EmptyString)
  | None => false
  end.

Definition file_marker : string := "FILE: ".
Definition fence : string := "```".

(** [line.split("FILE: ")[1].strip()]; the index exists whenever the line
    starts with the marker, the only case in which it is evaluated. *)
Definition marker_name (line : string) : string :=
  strip (nth 1 (py_split file_marker line) EmptyString).

(** One iteration of [for line in lines]; the second component is the
    write [(current_file, new_content)] the iteration performs, if any. *)
Definition step (st : scan_state) (line : string)
  : scan_state * option (string * string) :=
  if startswith file_marker line then
    (mk_scan (Some (marker_name line)) false [], None)
  else if startswith fence (strip line) && truthy (current_file st) then
    if code_block_active st then
      let target := match current_file st with Some f => f | None => EmptyString end in
      (mk_scan None false (buffer st), Some (target, py_join nl (buffer st)))
    else
      (mk_scan (current_file st) true (buffer st), None)
  else if code_block_active st then
    (mk_scan (current_file st) true (buffer st ++ [line]), None)
  else (st, None).

(** The writes of the loop, in order, from a given scanner state. *)
Fixpoint scan (st : scan_state) (lines : list string) : list (string * string) :=
  match lines with
  | [] => []
  | l :: ls =>
      let (st', w) := step st l in
      match w with
      | Some fc => fc :: scan st' ls
      | None => scan st' ls
      end
  end.

(** The writes [main] performs for a response text. *)
Definition apply_writes (response_text : string) : list (string * string) :=
  scan scan_init (py_split nl response_text).

(** ** The world [main] runs in, and its effects *)

(** Exceptions [main] can raise or catch. *)
Inductive py_exc :=
| TypeError            (* [int(None)] *)
| ValueError           (* [int(s)] on a non-numeric [s] *)
| ProviderError        (* any failure of [model.generate_content] *)
| OSError.             (* [open(path, "w")] refused by the host *)

(** Observable effects, logged in order. [ListModels] and [Generate] are
    the outbound calls to the model provider. *)
Inductive event :=
| EnvGet (key : string)
| Print (msg : string)
| Configure (api_key : string)
| ListModels
| NewModel (name : string)
| PathExists (path : string)
| ReadFile (path : string)
| Generate (model prompt : string)
| WriteFile (path content : string).

(** A model reported by [genai.list_models()]. *)
Record model_info := mk_model {
  name : string;
  supported_generation_methods : list string
}.

(** The host's file system as [open] sees it: the file a path names
    ([./index.html] and [index.html] name the same file, symbolic links
    are followed), and whether [open(path, "w")] raises an [OSError] (the
    path is a directory such as [.], its parent directory is missing, the
    permission is denied). [main] only creates and overwrites regular
    files, never directories or links, so both stay fixed during a run. *)
Record host_fs := mk_host {
  resolve : string -> string;
  open_fails : string -> bool
}.

(** What [main] cannot control: the process environment, the models
    [genai.list_models()] yields before it stops (with an exception
    message if the enumeration raised), the reply of [generate_content]
    for a model and a prompt ([None] when it raises), and the host's file
    system. *)
Record world := mk_world {
  environ : list (string * string);
  catalog : list model_info;
  catalog_error : option string;
  reply : string -> string -> option string;
  host : host_fs
}.

(** The mutable part: the effect log and the text of the files of the
    working directory, indexed by the file a path resolves to. *)
Record state := mk_state {
  log : list event;
  files : string -> option string
}.

Inductive outcome (A : Type) :=
| Ok (a : A)
| Raise (e : py_exc).
Arguments Ok {A} a.
Arguments Raise {A} e.

Definition M (A : Type) : Type := state -> state * outcome A.

Definition ret {A} (a : A) : M A := fun s => (s, Ok a).
Definition bind {A B} (m : M A) (k : A -> M B) : M B :=
  fun s => let (s', r) := m s in
           match r with Ok a => k a s' | Raise e => (s', Raise e) end.
Definition raise {A} (e : py_exc) : M A := fun s => (s, Raise e).

Notation "x <- m ;; k" := (bind m (fun x => k))
  (at level 61, m at next level, right associativity).
Notation "m ;; k" := (bind m (fun _ => k)) (at level 61, right associativity).

Definition emit (ev : event) : M unit :=
  fun s => (mk_state (log s ++ [ev]) (files s), Ok tt).

Definition print (msg : string) : M unit := emit (Print msg).

Fixpoint lookup (k : string) (kvs : list (string * string)) : option string :=
  match kvs with
  | [] => None
  | (k', v) :: kvs' => if String.eqb k k' then Some v else lookup k kvs'
  end.

(** [os.environ.get(key)] *)
Definition env_get (w : world) (key : string) : M (option string) :=
  emit (EnvGet key) ;; ret (lookup key (environ w)).

(** [os.path.exists(path)] followed, when it holds, by [f.read()]. *)
Definition path_exists (h : host_fs) (path : string) : M bool :=
  fun s => (mk_state (log s ++ [PathExists path]) (files s),
            Ok (match files s (resolve h path) with Some _ => true | None => false end)).

Definition cr : ascii := ascii_of_nat 13.
Definition lf : ascii := ascii_of_nat 10.

(** Reading in text mode with the default [newline=None]: every ["\r\n"]
    and every other ["\r"] becomes ["\n"]. *)
Fixpoint universal_newlines (s : string) : string :=
  match s with
  | EmptyString => EmptyString
  | String c s' =>
      if Ascii.eqb c cr then
        match s' with
        | String d s'' =>
            if Ascii.eqb d lf then String lf (universal_newlines s'')
            else String lf (universal_newlines s')
        | EmptyString => String lf EmptyString
        end
      else String c (universal_newlines s')
  end.

(** [with open(path, "r", encoding="utf-8") as f: f.read()] *)
Definition read_file (h : host_fs) (path : string) : M string :=
  fun s => (mk_state (log s ++ [ReadFile path]) (files s),
            Ok (match files s (resolve h path) with
                | Some c => universal_newlines c
                | None => EmptyString
                end)).

Fixpoint has_nul (s : string) : bool :=
  match s with
  | EmptyString => false
  | String c s' => Ascii.eqb c (ascii_of_nat 0) || has_nul s'
  end.

(** What [open(path, "w")] raises, if anything: [ValueError] for a path
    with an embedded NUL character, otherwise the host's [OSError]. *)
Definition write_error (h : host_fs) (path : string) : option py_exc :=
  if has_nul path then Some ValueError
  else if open_fails h path then Some OSError
  else None.

(** [with open(path, "w", encoding="utf-8") as f: f.write(content)]: when
    [open] succeeds the file's whole content is replaced (text mode on
    POSIX writes ["\n"] as is); when it raises, nothing is written and the
    exception propagates. *)
Definition write_file (h : host_fs) (path content : string) : M unit :=
  match write_error h path with
  | Some e => raise e
  | None =>
      fun s => (mk_state (log s ++ [WriteFile path content])
                  (fun p => if String.eqb p (resolve h path) then Some content else files s p),
                Ok tt)
  end.

(** ** [int(s)] on a string: surrounding whitespace, an optional sign and
    decimal digits, single underscores allowed between digits. *)

Definition digit_value (c : ascii) : option Z :=
  let n := nat_of_ascii c in
  if ((48 <=? n) && (n <=? 57))%nat then Some (Z.of_nat (n - 48)) else None.

Definition underscore : ascii := "_"%char.

Fixpoint digits_value (s : string) (acc : Z) (after_us : bool) : option Z :=
  match s with
  | EmptyString => if after_us then None else Some acc
  | String c s' =>
      if Ascii.eqb c underscore then
        if after_us then None else digits_value s' acc true
      else match digit_value c with
           | Some d => digits_value s' (acc * 10 + d)%Z false
           | None => None
           end
  end.

Definition unsigned_value (s : string) : option Z :=
  match s with
  | String c _ =>
      match digit_value c with Some _ => digits_value s 0%Z false | None => None end
  | EmptyString => None
  end.

Definition parse_int (s : string) : option Z :=
  match strip s with
  | String c rest =>
      if Ascii.eqb c "-"%char then option_map Z.opp (unsigned_value rest)
      else if Ascii.eqb c "+"%char then unsigned_value rest
      else unsigned_value (String c rest)
  | EmptyString => None
  end.

(** [int(os.environ.get(...))]: [None] raises [TypeError]. *)
Definition py_int (v : option string) : M Z :=
  match v with
  | None => raise TypeError
  | Some s => match parse_int s with Some z => ret z | None => raise ValueError end
  end.

(** ** Dynamic model selection (lines 20-53) *)

Definition priority_models : list string :=
  [ "models/gemini-3-pro-preview"
  ; "models/gemini-2.0-pro-exp"
  ; "models/gemini-2.5-pro"
  ; "models/gemini-2.0-flash"
  ; "models/gemini-1.5-pro-latest"
  ; "models/gemini-1.5-pro"
  ; "models/gemini-1.5-flash"
  ; "models/gemini-pro" ].

Definition fallback_model : string := "gemini-pro".

Definition mem (x : string) (xs : list string) : bool :=
  existsb (String.eqb x) xs.

(** The body of [for m in genai.list_models()]: appends and prints the
    names of the models supporting [generateContent]. *)
Fixpoint collect_models (ms : list model_info) (available : list string)
  : M (list string) :=
  match ms with
  | [] => ret available
  | m :: ms' =>
      if mem "generateContent" (supported_generation_methods m) then
        print ("Found supported model: " ++ name m) ;;
        collect_models ms' (available ++ [name m])
      else collect_models ms' available
  end.

(** The [try]/[except Exception]: the models yielded before the exception
    have already been appended; the exception is printed and dropped. *)
Definition list_available (w : world) : M (list string) :=
  emit ListModels ;;
  available <- collect_models (catalog w) [] ;;
  match catalog_error w with
  | Some msg => print ("Error listing models: " ++ msg) ;; ret available
  | None => ret available
  end.

(** [for priority in priority_models: if priority in available_models: ...; break] *)
Fixpoint first_available (priority : list string) (available : list string)
  : option string :=
  match priority with
  | [] => None
  | p :: ps => if mem p available then Some p else first_available ps available
  end.

Definition select_model (available : list string) : M string :=
  match first_available priority_models available with
  | Some m => ret m
  | None =>
      print "Could not find a preferred model in the list. Attempting 'gemini-pro' as fallback." ;;
      ret fallback_model
  end.

(** Lines 20-51: enumeration followed by the priority scan. *)
Definition choose_model (w : world) : M string :=
  available_models <- list_available w ;;
  select_model available_models.

(** ** Reading the two files and building the prompt (lines 59-101) *)

Definition files_to_read : list string := ["index.html"; "style.css"].

Definition missing_sentinel : string := "(File does not exist yet)".

Fixpoint read_files (h : host_fs) (fs : list string) (file_contents : list (string * string))
  : M (list (string * string)) :=
  match fs with
  | [] => ret file_contents
  | f :: fs' =>
      b <- path_exists h f ;;
      if b then (c <- read_file h f ;; read_files h fs' (file_contents ++ [(f, c)]))
      else read_files h fs' (file_contents ++ [(f, missing_sentinel)])
  end.

(** [dict.get(k, '')] *)
Definition get_or_empty (k : string) (d : list (string * string)) : string :=
  match lookup k d with Some v => v | None => EmptyString end.

(** Rendering of an environment value in an f-string. *)
Definition fmt_opt (v : option string) : string :=
  match v with Some s => s | None => "None" end.

(** The f-string of lines 70-101: its text is the lines of the source
    between the quotes, joined by newlines, with the three fields filled in. *)
Definition build_prompt (issue_body index_html style_css : string) : string :=
  py_join nl
    [ EmptyString
    ; "    You are an expert web developer agent. "
    ; "    Your task is to modify the following website code based on the user's request."
    ; "    "
    ; "    USER REQUEST:"
    ; ("    " ++ issue_body)
    ; "    "
    ; "    CURRENT FILE CONTENT:"
    ; "    "
    ; "    --- index.html ---"
    ; ("    " ++ index_html)
    ; "    "
    ; "    --- style.css ---"
    ; ("    " ++ style_css)
    ; "    "
    ; "    INSTRUCTIONS:"
    ; "    1. Return the FULL content of the modified files. "
    ; "    2. If a file is not modified, do not return it."
    ; "    3. Use the following format strictly:"
    ; "    "
    ; "    FILE: index.html"
    ; "    ```html"
    ; "    ... full content of index.html ..."
    ; "    ```"
    ; "    "
    ; "    FILE: style.css"
    ; "    ```css"
    ; "    ... full content of style.css ..."
    ; "    ```"
    ; "    "
    ; "    Do not add any other conversational text. Just the file blocks."
    ; "    " ].

(** ** Applying the writes of the reply (lines 110-133) *)

Fixpoint perform_writes (h : host_fs) (ws : list (string * string)) : M unit :=
  match ws with
  | [] => ret tt
  | (f, c) :: ws' =>
      print ("Updating " ++ f ++ "...") ;; write_file h f c ;; perform_writes h ws'
  end.

(** [model.generate_content(prompt).text] *)
Definition generate (w : world) (model prompt : string) : M string :=
  emit (Generate model prompt) ;;
  match reply w model prompt with
  | Some text => ret text
  | None => raise ProviderError
  end.

(** ** [main] *)
Definition main (w : world) : M unit :=
  api_key <- env_get w "GEMINI_API_KEY" ;;
  match api_key with
  | None => print "Error: GEMINI_API_KEY not found."
  | Some k =>
    if String.eqb k EmptyString then print "Error: GEMINI_API_KEY not found." else
    _github_token <- env_get w "GITHUB_TOKEN" ;;
    _repo_name <- env_get w "REPO_NAME" ;;
    issue_number_s <- env_get w "ISSUE_NUMBER" ;;
    _issue_number <- py_int issue_number_s ;;
    issue_body <- env_get w "ISSUE_BODY" ;;
    emit (Configure k) ;;
    print "Listing available models..." ;;
    selected_model_name <- choose_model w ;;
    print ("Selected model: " ++ selected_model_name) ;;
    emit (NewModel selected_model_name) ;;
    file_contents <- read_files (host w) files_to_read [] ;;
    let prompt := build_prompt (fmt_opt issue_body)
                    (get_or_empty "index.html" file_contents)
                    (get_or_empty "style.css" file_contents) in
    print "Sending request to Gemini..." ;;
    response_text <- generate w selected_model_name prompt ;;
    print "Received response from Gemini." ;;
    perform_writes (host w) (apply_writes response_text)
  end.

(** Running [main] from an initial file system with an empty log. *)
Definition run (w : world) (fs : string -> option string) : state * outcome unit :=
  main w (mk_state [] fs).

(** A host on which every path names its own file and only [open(".", "w")]
    fails ([.] is the working directory itself). *)
Definition example_host : host_fs := mk_host (fun p => p) (fun p => String.eqb p ".").

(** * Properties *)

(** ** Auxiliary notions used in the statements *)

(** A line the scanner treats as content: neither a marker nor a fence. *)
Definition content_line (l : string) : bool :=
  negb (startswith file_marker l) && negb (startswith fence (strip l)).

Fixpoint newline_free (s : string) : bool :=
  match s with
  | EmptyString => true
  | String c s' => negb (Ascii.eqb c (ascii_of_nat 10)) && newline_free s'
  end.

(** Scanner state after a sequence of lines. *)
Definition final_state (st : scan_state) (lines : list string) : scan_state :=
  fold_left (fun st l => fst (step st l)) lines st.

(** The file system after a sequence of successful writes. *)
Fixpoint replay (h : host_fs) (ws : list (string * string)) (fs : string -> option string)
  : string -> option string :=
  match ws with
  | [] => fs
  | (f, c) :: ws' => replay h ws' (fun p => if String.eqb p (resolve h f) then Some c else fs p)
  end.

(** The files a sequence of writes targets. *)
Definition targets (h : host_fs) (ws : list (string * string)) : list string :=
  map (fun fc => resolve h (fst fc)) ws.

(** Writes whose [open] succeeds. *)
Definition writable (h : host_fs) (ws : list (string * string)) : Prop :=
  Forall (fun fc => write_error h (fst fc) = None) ws.

Fixpoint write_events (ws : list (string * string)) : list event :=
  match ws with
  | [] => []
  | (f, c) :: ws' => Print ("Updating " ++ f ++ "...") :: WriteFile f c :: write_events ws'
  end.

(** ** Strings *)

Lemma str_app_assoc (a b c : string) : (a ++ b) ++ c = a ++ (b ++ c).
Proof. induction a as [|x a IH]; simpl; [reflexivity | now rewrite IH]. Qed.

Lemma str_app_nil (a : string) : a ++ EmptyString = a.
Proof. induction a as [|x a IH]; simpl; [reflexivity | now rewrite IH]. Qed.

Lemma startswith_nl (c : ascii) (s : string) :
  startswith nl (String c s) = Ascii.eqb (ascii_of_nat 10) c.
Proof. unfold nl; cbn [startswith]. apply andb_true_r. Qed.

Lemma split_go_nl_last (l cur : string) :
  newline_free l = true -> split_go nl l cur 0 = [cur ++ l].
Proof.
  revert cur; induction l as [|c l IH]; intros cur H.
  - cbn [split_go]. now rewrite str_app_nil.
  - cbn [newline_free] in H; apply andb_prop in H as [Hc Hl].
    apply negb_true_iff in Hc.
    cbn [split_go]. rewrite startswith_nl, Ascii.eqb_sym, Hc.
    rewrite IH by exact Hl. now rewrite str_app_assoc.
Qed.

Lemma split_go_nl_sep (l rest cur : string) :
  newline_free l = true ->
  split_go nl (l ++ nl ++ rest) cur 0 = (cur ++ l) :: split_go nl rest EmptyString 0.
Proof.
  revert cur; induction l as [|c l IH]; intros cur H.
  - change (EmptyString ++ nl ++ rest) with (String (ascii_of_nat 10) rest).
    cbn [split_go]. rewrite startswith_nl, Ascii.eqb_refl. now rewrite str_app_nil.
  - cbn [newline_free] in H; apply andb_prop in H as [Hc Hl].
    apply negb_true_iff in Hc.
    cbn [String.append split_go]. rewrite startswith_nl, Ascii.eqb_sym, Hc.
    rewrite IH by exact Hl. now rewrite str_app_assoc.
Qed.

(** Splitting the newline-join of newline-free lines gives them back. *)
Lemma split_join (ls : list string) :
  ls <> [] -> Forall (fun l => newline_free l = true) ls ->
  py_split nl (py_join nl ls) = ls.
Proof.
  induction ls as [|x ls IH]; intros Hne Hf; [congruence|].
  inversion Hf as [|? ? Hx Hls]; subst.
  destruct ls as [|y ls].
  - unfold py_split; simpl py_join. now rewrite split_go_nl_last.
  - change (py_join nl (x :: y :: ls)) with (x ++ nl ++ py_join nl (y :: ls)).
    unfold py_split. rewrite split_go_nl_sep by exact Hx.
    simpl (EmptyString ++ x). f_equal. apply IH; [discriminate | exact Hls].
Qed.

(** ** The scanner *)

Lemma step_marker (st : scan_state) (l : string) :
  startswith file_marker l = true ->
  step st l = (mk_scan (Some (marker_name l)) false [], None).
Proof. intros H; unfold step; now rewrite H. Qed.

(** From a marker line on, the scan does not depend on the state. *)
Lemma scan_marker (st : scan_state) (l : string) (ls : list string) :
  startswith file_marker l = true ->
  scan st (l :: ls) = scan (mk_scan (Some (marker_name l)) false []) ls.
Proof. intros H; cbn [scan]; now rewrite step_marker. Qed.

Lemma scan_marker_any (st st' : scan_state) (l : string) (ls : list string) :
  startswith file_marker l = true -> scan st (l :: ls) = scan st' (l :: ls).
Proof. intros H; now rewrite !(scan_marker _ _ _ H). Qed.

Lemma content_line_parts (l : string) :
  content_line l = true ->
  startswith file_marker l = false /\ startswith fence (strip l) = false.
Proof.
  unfold content_line; intros H; apply andb_prop in H as [H1 H2].
  now apply negb_true_iff in H1, H2.
Qed.

(** Inside an open block, content lines go to the buffer. *)
Lemma scan_active_content (cur : option string) (buf cs rest : list string) :
  Forall (fun l => content_line l = true) cs ->
  scan (mk_scan cur true buf) (cs ++ rest) = scan (mk_scan cur true (buf ++ cs)) rest.
Proof.
  revert buf; induction cs as [|l cs IH]; intros buf Hcs.
  - now rewrite app_nil_r.
  - inversion Hcs as [|? ? Hl Hcs']; subst.
    destruct (content_line_parts l Hl) as [Hm Hf].
    cbn [app scan]. unfold step at 1; rewrite Hm, Hf; cbn -[scan].
    rewrite IH by exact Hcs'. now rewrite <- app_assoc.
Qed.

(** Outside a block, content lines are ignored. *)
Lemma scan_idle_content (cur : option string) (buf cs rest : list string) :
  Forall (fun l => content_line l = true) cs ->
  scan (mk_scan cur false buf) (cs ++ rest) = scan (mk_scan cur false buf) rest.
Proof.
  intros Hcs; induction Hcs as [|l cs Hl Hcs IH]; [reflexivity|].
  destruct (content_line_parts l Hl) as [Hm Hf].
  cbn [app scan]. unfold step at 1; rewrite Hm, Hf; cbn -[scan]. exact IH.
Qed.

(** After a write, the stale buffer plays no role. *)
Lemma scan_idle_none (buf ls : list string) :
  scan (mk_scan None false buf) ls = scan scan_init ls.
Proof.
  revert buf; induction ls as [|l ls IH]; intros buf; [reflexivity|].
  destruct (startswith file_marker l) eqn:Hm.
  - now apply scan_marker_any.
  - cbn [scan]. unfold step, scan_init; rewrite Hm.
    cbn [truthy current_file code_block_active]. rewrite !andb_false_r.
    cbn -[scan]. rewrite IH. symmetry; apply IH.
Qed.

Lemma scan_app (st : scan_state) (xs ys : list string) :
  scan st (xs ++ ys) = (scan st xs ++ scan (final_state st xs) ys)%list.
Proof.
  revert st; induction xs as [|l xs IH]; intros st; [reflexivity|].
  cbn [app scan final_state fold_left].
  destruct (step st l) as [st' [w|]] eqn:E; cbn [fst];
    rewrite IH; reflexivity.
Qed.

(** A marker line is never a fence line. *)
Lemma marker_not_fence (l : string) :
  startswith file_marker l = true -> startswith fence (strip l) = false.
Proof.
  intros E. destruct l as [|x l]; [discriminate|].
  unfold file_marker in E; cbn [startswith] in E.
  apply andb_prop in E as [E _]. apply Ascii.eqb_eq in E; subst x.
  reflexivity.
Qed.

(** A complete block, from its marker line to its closing fence. *)
Lemma scan_block (st : scan_state) (m o c : string) (cs suf : list string) :
  startswith file_marker m = true -> marker_name m <> EmptyString ->
  startswith fence (strip o) = true ->
  Forall (fun l => content_line l = true) cs ->
  startswith fence (strip c) = true ->
  scan st (m :: o :: cs ++ c :: suf)
  = (marker_name m, py_join nl cs) :: scan scan_init suf.
Proof.
  intros Hm Hn Ho Hcs Hc.
  rewrite scan_marker by exact Hm.
  assert (Ho' : startswith file_marker o = false).
  { destruct (startswith file_marker o) eqn:E; [|reflexivity].
    now rewrite (marker_not_fence o E) in Ho. }
  assert (Ht : truthy (Some (marker_name m)) = true).
  { cbn. apply negb_true_iff, String.eqb_neq, Hn. }
  cbn [scan]. unfold step at 1; cbn [current_file code_block_active buffer].
  rewrite Ho', Ho, Ht; cbn -[scan app].
  rewrite scan_active_content by exact Hcs; cbn [app].
  assert (Hc' : startswith file_marker c = false).
  { destruct (startswith file_marker c) eqn:E; [|reflexivity].
    now rewrite (marker_not_fence c E) in Hc. }
  cbn [scan]. unfold step at 1; cbn [current_file code_block_active buffer].
  rewrite Hc', Hc, Ht; cbn -[scan].
  now rewrite scan_idle_none.
Qed.

(** ** Writes *)

Lemma app_cons_assoc_pair {A} (xs : list A) (y : A) (ys : list A) :
  (xs ++ y :: ys = (xs ++ [y]) ++ ys)%list.
Proof. now rewrite <- app_assoc. Qed.

(** One iteration of the writing: the message, then [open], which may raise. *)
Lemma perform_writes_cons (h : host_fs) (f c : string) (ws : list (string * string)) (s : state) :
  perform_writes h ((f, c) :: ws) s
  = match write_error h f with
    | Some e => (mk_state (log s ++ [Print ("Updating " ++ f ++ "...")]) (files s), Raise e)
    | None => perform_writes h ws
                (mk_state (log s ++ [Print ("Updating " ++ f ++ "..."); WriteFile f c])
                   (fun p => if String.eqb p (resolve h f) then Some c else files s p))
    end.
Proof.
  destruct s as [lg fs]. cbn [perform_writes]. unfold bind, print, emit, write_file.
  cbn [log files]. destruct (write_error h f); cbn [log files]; [reflexivity|].
  now rewrite <- app_assoc.
Qed.

Lemma perform_writes_run (h : host_fs) (ws : list (string * string)) (s : state) :
  writable h ws ->
  perform_writes h ws s
  = (mk_state (log s ++ write_events ws) (replay h ws (files s)), Ok tt).
Proof.
  revert s; induction ws as [|[f c] ws IH]; intros [lg fs] Hw.
  - cbn. now rewrite app_nil_r.
  - inversion Hw as [|? ? Hf Hws]; subst. cbn [fst] in Hf.
    rewrite perform_writes_cons, Hf, IH by exact Hws. cbn [log files write_events replay].
    now rewrite <- app_assoc.
Qed.

Lemma perform_writes_app_ok (h : host_fs) (ws1 ws2 : list (string * string)) (s : state) :
  writable h ws1 ->
  perform_writes h (ws1 ++ ws2) s
  = perform_writes h ws2 (mk_state (log s ++ write_events ws1) (replay h ws1 (files s))).
Proof.
  revert s; induction ws1 as [|[f c] ws1 IH]; intros [lg fs] Hw.
  - cbn. now rewrite app_nil_r.
  - inversion Hw as [|? ? Hf Hws]; subst. cbn [fst] in Hf.
    rewrite <- app_comm_cons, perform_writes_cons, Hf, IH by exact Hws.
    cbn [log files write_events replay]. now rewrite <- app_assoc.
Qed.

(** A file no write targets keeps its content, whether or not some write
    raises. *)
Lemma perform_writes_files_notin (h : host_fs) (ws : list (string * string)) (s : state) (p : string) :
  ~ In p (targets h ws) -> files (fst (perform_writes h ws s)) p = files s p.
Proof.
  revert s; induction ws as [|[f c] ws IH]; intros s Hn; [reflexivity|].
  cbn [targets map fst] in Hn. rewrite perform_writes_cons.
  destruct (write_error h f); [reflexivity|].
  rewrite IH by (intros H; apply Hn; now right). cbn [files].
  destruct (String.eqb_spec p (resolve h f)) as [E|]; [subst; destruct Hn; now left | reflexivity].
Qed.

(** What a run of the writes does in any case: it appends some of the
    messages and write events of the writes to the log, and each file
    either keeps its content or holds the content of a logged write
    targeting it. *)
Lemma perform_writes_effect (h : host_fs) (ws : list (string * string)) (s : state) :
  exists evs, log (fst (perform_writes h ws s)) = (log s ++ evs)%list
    /\ (forall e, In e evs -> In e (write_events ws))
    /\ (forall p, files (fst (perform_writes h ws s)) p = files s p
          \/ exists f c, In (WriteFile f c) evs /\ resolve h f = p
                         /\ files (fst (perform_writes h ws s)) p = Some c).
Proof.
  revert s; induction ws as [|[f c] ws IH]; intros s.
  - exists []. split; [cbn; now rewrite app_nil_r|]. split; [intros e []|]. now left.
  - rewrite perform_writes_cons. destruct (write_error h f) as [e|].
    + exists [Print ("Updating " ++ f ++ "...")]. cbn [fst log files].
      split; [reflexivity|]. split; [|now left].
      intros e' [<-|[]]. now left.
    + destruct (IH (mk_state (log s ++ [Print ("Updating " ++ f ++ "..."); WriteFile f c])
                    (fun p => if String.eqb p (resolve h f) then Some c else files s p)))
        as (evs & Hlog & Hin & Hfs).
      exists ([Print ("Updating " ++ f ++ "..."); WriteFile f c] ++ evs)%list.
      split; [rewrite Hlog; cbn [log]; now rewrite <- app_assoc|]. split.
      * intros e He. apply in_app_or in He as [He|He].
        -- cbn [write_events]. destruct He as [<-|[<-|[]]]; [now left | right; now left].
        -- cbn [write_events]. right; right. now apply Hin.
      * intros p. destruct (Hfs p) as [E|(g & d & Hg & Hr & E)].
        -- rewrite E. cbn [files]. destruct (String.eqb_spec p (resolve h f)) as [->|]; [|now left].
           right. exists f, c. split; [right; now left|]. split; reflexivity.
        -- right. exists g, d. split; [apply in_or_app; now right|]. split; assumption.
Qed.

Lemma replay_notin (h : host_fs) (ws : list (string * string)) (fs : string -> option string) (p : string) :
  ~ In p (targets h ws) -> replay h ws fs p = fs p.
Proof.
  revert fs; induction ws as [|[g c] ws IH]; intros fs Hn; [reflexivity|].
  cbn in Hn |- *. rewrite IH by tauto.
  destruct (String.eqb_spec p (resolve h g)); [subst; tauto | reflexivity].
Qed.

Lemma replay_app (h : host_fs) (ws1 ws2 : list (string * string)) (fs : string -> option string) :
  replay h (ws1 ++ ws2) fs = replay h ws2 (replay h ws1 fs).
Proof.
  revert fs; induction ws1 as [|[g c] ws1 IH]; intros fs; [reflexivity|].
  cbn. apply IH.
Qed.

Lemma replay_last (h : host_fs) (ws : list (string * string)) (f c : string) (fs : string -> option string) :
  replay h (ws ++ [(f, c)]) fs (resolve h f) = Some c.
Proof. rewrite replay_app; cbn [replay]. now rewrite String.eqb_refl. Qed.

(** ** Invariant of the scan loop *)

(** [n] is the name read from some marker line among [seen]. *)
Definition from_marker (seen : list string) (n : string) : Prop :=
  exists l, In l seen /\ startswith file_marker l = true /\ marker_name l = n.

Definition scan_inv (seen : list string) (st : scan_state) : Prop :=
  (forall n, current_file st = Some n -> from_marker seen n) /\
  (code_block_active st = true -> truthy (current_file st) = true).

Lemma from_marker_app (seen more : list string) (n : string) :
  from_marker seen n -> from_marker (seen ++ more) n.
Proof.
  intros (l & Hin & Hm & Hn). exists l; split; [apply in_or_app; now left | auto].
Qed.

Lemma truthy_some (n : string) : truthy (Some n) = true <-> n <> EmptyString.
Proof.
  cbn. rewrite negb_true_iff. apply String.eqb_neq.
Qed.

Lemma step_inv (seen : list string) (st : scan_state) (l : string) :
  scan_inv seen st ->
  scan_inv (seen ++ [l]) (fst (step st l)) /\
  (forall f c, snd (step st l) = Some (f, c) -> f <> EmptyString /\ from_marker seen f).
Proof.
  intros [Hcur Hact]. unfold step.
  destruct (startswith file_marker l) eqn:Hm.
  - split; [split|]; cbn; [|discriminate|discriminate].
    intros n [= <-]. exists l; split; [apply in_or_app; right; now left | auto].
  - destruct (startswith fence (strip l) && truthy (current_file st)) eqn:Hf.
    + apply andb_prop in Hf as [_ Ht].
      destruct (code_block_active st) eqn:Ha.
      * split; [split|]; cbn; [discriminate|discriminate|].
        intros f c [= <- _].
        destruct (current_file st) as [n|] eqn:Ec; [|discriminate].
        split; [now apply truthy_some | now apply Hcur].
      * split; [split|]; cbn; [|auto|discriminate].
        intros n Hn; apply from_marker_app; auto.
    + destruct (code_block_active st) eqn:Ha.
      * split; [split|]; cbn; [|auto|discriminate].
        intros n Hn; apply from_marker_app; auto.
      * split; [split|]; cbn; [|rewrite Ha; discriminate|discriminate].
        intros n Hn; apply from_marker_app; auto.
Qed.

Lemma final_state_inv (xs seen : list string) (st : scan_state) :
  scan_inv seen st -> scan_inv (seen ++ xs) (final_state st xs).
Proof.
  revert seen st; induction xs as [|l xs IH]; intros seen st H.
  - now rewrite app_nil_r.
  - cbn [final_state fold_left].
    replace (seen ++ l :: xs)%list with ((seen ++ [l]) ++ xs)%list by now rewrite <- app_assoc.
    apply IH. now apply step_inv.
Qed.

Lemma scan_writes_from_markers (xs seen : list string) (st : scan_state) :
  scan_inv seen st ->
  forall f c, In (f, c) (scan st xs) -> f <> EmptyString /\ from_marker (seen ++ xs) f.
Proof.
  revert seen st; induction xs as [|l xs IH]; intros seen st H f c Hin; [destruct Hin|].
  destruct (step_inv seen st l H) as [H' Hw].
  cbn [scan] in Hin. destruct (step st l) as [st' w] eqn:E; cbn in H', Hw.
  replace (seen ++ l :: xs)%list with ((seen ++ [l]) ++ xs)%list by now rewrite <- app_assoc.
  destruct w as [[g d]|].
  - destruct Hin as [[= <- <-]|Hin].
    + destruct (Hw g d eq_refl) as [Hne Hfm]. split; [exact Hne|].
      now do 2 apply from_marker_app.
    + exact (IH _ _ H' f c Hin).
  - exact (IH _ _ H' f c Hin).
Qed.

Lemma scan_inv_init : scan_inv [] scan_init.
Proof. split; cbn; discriminate. Qed.

(** The text after the marker, as the claims read a marker line. *)
Definition after_marker (line : string) : string :=
  substring (String.length file_marker) (String.length line) line.

(** * Claims about the response applier *)

Lemma app_cons_neq_nil {A} (xs : list A) (y : A) (ys : list A) : (xs ++ y :: ys)%list <> [].
Proof. destruct xs; discriminate. Qed.

(** C1 (as amended): a response with one well-formed block for a file (a
    [FILE: ] line naming it, an opening fence, content lines, a closing
    fence) writes exactly the content lines joined by newlines: no fence,
    tag or marker line, no added blank line. Whatever precedes the block
    keeps its own writes. When those earlier writes and the block's own
    [open] succeed, and no later block targets the same file (under any
    name), the file ends up with exactly that content, whatever the later
    writes do. *)
Theorem C1_block_content_verbatim (h : host_fs) (pre suf cs : list string) (m o c : string) (s : state) :
  startswith file_marker m = true -> marker_name m <> EmptyString ->
  startswith fence (strip o) = true ->
  Forall (fun l => content_line l = true) cs ->
  startswith fence (strip c) = true ->
  Forall (fun l => newline_free l = true) (pre ++ m :: o :: cs ++ c :: suf) ->
  writable h (scan scan_init pre) -> write_error h (marker_name m) = None ->
  ~ In (resolve h (marker_name m)) (targets h (scan scan_init suf)) ->
  apply_writes (py_join nl (pre ++ m :: o :: cs ++ c :: suf))
    = (scan scan_init pre ++ (marker_name m, py_join nl cs) :: scan scan_init suf)%list
  /\ files (fst (perform_writes h (apply_writes (py_join nl (pre ++ m :: o :: cs ++ c :: suf))) s))
       (resolve h (marker_name m)) = Some (py_join nl cs).
Proof.
  intros Hm Hn Ho Hcs Hc Hnl Hpre Hw Hsuf.
  assert (E : apply_writes (py_join nl (pre ++ m :: o :: cs ++ c :: suf))
              = (scan scan_init pre ++ (marker_name m, py_join nl cs) :: scan scan_init suf)%list).
  { unfold apply_writes. rewrite split_join by (apply app_cons_neq_nil || exact Hnl).
    rewrite scan_app. f_equal. now apply scan_block. }
  split; [exact E|].
  rewrite E, app_cons_assoc_pair, perform_writes_app_ok.
  - rewrite perform_writes_files_notin by exact Hsuf. cbn [files]. apply replay_last.
  - unfold writable. apply Forall_app; split; [exact Hpre | now constructor].
Qed.

Lemma C1_block_content_verbatim_witness :
  apply_writes (py_join nl ([] ++ "FILE: index.html" :: "```html" :: ["<p>hi</p>"; "  <br>"] ++ "```" :: []))
  = ([] ++ (marker_name "FILE: index.html", py_join nl ["<p>hi</p>"; "  <br>"]) :: [])%list
  /\ files (fst (perform_writes example_host
    (apply_writes (py_join nl ([] ++ "FILE: index.html" :: "```html" :: ["<p>hi</p>"; "  <br>"] ++ "```" :: [])))
    (mk_state [] (fun _ => None)))) (resolve example_host (marker_name "FILE: index.html"))
  = Some (py_join nl ["<p>hi</p>"; "  <br>"]).
Proof.
  apply (C1_block_content_verbatim example_host [] [] ["<p>hi</p>"; "  <br>"] "FILE: index.html"
           "```html" "```" (mk_state [] (fun _ => None))); try reflexivity.
  - vm_compute; discriminate.
  - repeat constructor.
  - repeat constructor.
  - constructor.
  - vm_compute; tauto.
Defined.

(** C1 as stated fails: an earlier block naming [.] makes [open] raise
    before the well-formed block for [index.html] is reached, so that file
    is never written. *)
Lemma C1_counterexample :
  ~ (forall (h : host_fs) (pre suf cs : list string) (m o c : string) (s : state),
       startswith file_marker m = true -> marker_name m <> EmptyString ->
       startswith fence (strip o) = true ->
       Forall (fun l => content_line l = true) cs ->
       startswith fence (strip c) = true ->
       Forall (fun l => newline_free l = true) (pre ++ m :: o :: cs ++ c :: suf) ->
       ~ In (resolve h (marker_name m)) (targets h (scan scan_init suf)) ->
       files (fst (perform_writes h (apply_writes (py_join nl (pre ++ m :: o :: cs ++ c :: suf))) s))
         (resolve h (marker_name m)) = Some (py_join nl cs)).
Proof.
  intros H.
  specialize (H example_host ["FILE: ."; "```"; "x"; "```"] [] ["<p>hi</p>"] "FILE: index.html"
                "```html" "```" (mk_state [] (fun _ => None))).
  vm_compute in H. discriminate H;
    [reflexivity | discriminate | reflexivity | repeat constructor | reflexivity
    | repeat constructor | tauto].
Qed.

(** Shared decomposition: a block cut short by a later marker line writes
    nothing; the scan resumes at that marker as from the start. *)
Lemma scan_abandoned (pre cs rest : list string) (ma o mb : string) :
  startswith file_marker ma = true -> startswith fence (strip o) = true ->
  Forall (fun l => content_line l = true) cs ->
  startswith file_marker mb = true ->
  scan scan_init (pre ++ ma :: o :: cs ++ mb :: rest)
  = (scan scan_init pre ++ scan scan_init (mb :: rest))%list.
Proof.
  intros Ha Ho Hcs Hb. rewrite scan_app. f_equal.
  rewrite scan_marker by exact Ha.
  assert (Ho' : startswith file_marker o = false).
  { destruct (startswith file_marker o) eqn:E; [|reflexivity].
    now rewrite (marker_not_fence o E) in Ho. }
  cbn [scan]. unfold step at 1; cbn [current_file code_block_active buffer].
  rewrite Ho', Ho, andb_true_l.
  destruct (truthy (Some (marker_name ma))) eqn:Ht; cbn -[scan app].
  - rewrite scan_active_content by exact Hcs. now apply scan_marker_any.
  - rewrite scan_idle_content by exact Hcs. now apply scan_marker_any.
Qed.

(** C2 (as amended): when a [FILE: ] line for B comes after the opening
    fence of A's block and before its closing fence, A's partial block
    writes nothing: the writes are those of the text before A's marker
    followed by those of the text from B's marker on, scanned as a fresh
    response. So A is written only by another complete block for A, and
    B's block, if opened and closed, writes B with its content lines. *)
Theorem C2_abandoned_block_discarded (pre cs rest : list string) (ma o mb : string) :
  startswith file_marker ma = true -> startswith fence (strip o) = true ->
  Forall (fun l => content_line l = true) cs ->
  startswith file_marker mb = true ->
  Forall (fun l => newline_free l = true) (pre ++ ma :: o :: cs ++ mb :: rest) ->
  apply_writes (py_join nl (pre ++ ma :: o :: cs ++ mb :: rest))
    = (scan scan_init pre ++ apply_writes (py_join nl (mb :: rest)))%list
  /\ (forall o' ds c' rest',
        rest = (o' :: ds ++ c' :: rest')%list ->
        marker_name mb <> EmptyString -> startswith fence (strip o') = true ->
        Forall (fun l => content_line l = true) ds -> startswith fence (strip c') = true ->
        apply_writes (py_join nl (pre ++ ma :: o :: cs ++ mb :: rest))
        = (scan scan_init pre ++ (marker_name mb, py_join nl ds) :: scan scan_init rest')%list).
Proof.
  intros Ha Ho Hcs Hb Hnl.
  assert (E : apply_writes (py_join nl (pre ++ ma :: o :: cs ++ mb :: rest))
              = (scan scan_init pre ++ apply_writes (py_join nl (mb :: rest)))%list).
  { unfold apply_writes.
    rewrite split_join by (apply app_cons_neq_nil || exact Hnl).
    rewrite split_join.
    - now apply scan_abandoned.
    - discriminate.
    - apply Forall_app in Hnl as [_ Hnl]. inversion Hnl; subst.
      inversion H2; subst. apply Forall_app in H4 as [_ H4]. exact H4. }
  split; [exact E|].
  intros o' ds c' rest' -> Hn Ho' Hds Hc'.
  rewrite E. f_equal. unfold apply_writes.
  rewrite split_join.
  - now apply scan_block.
  - discriminate.
  - apply Forall_app in Hnl as [_ Hnl]. inversion Hnl; subst.
    inversion H2; subst. apply Forall_app in H4 as [_ H4]. exact H4.
Qed.

Lemma C2_abandoned_block_discarded_witness :
  apply_writes (py_join nl ([] ++ "FILE: index.html" :: "```html" :: ["<p>"] ++
                            "FILE: style.css" :: ["```css"; "p {}"; "```"]))
  = ([] ++ apply_writes (py_join nl ("FILE: style.css" :: ["```css"; "p {}"; "```"])))%list.
Proof.
  apply (C2_abandoned_block_discarded [] ["<p>"] ["```css"; "p {}"; "```"]
           "FILE: index.html" "```html" "FILE: style.css"); try reflexivity;
    repeat constructor.
Defined.

(** C2 as stated fails: A is written when the response holds another,
    complete block for A after the abandoned one. *)
Lemma C2_counterexample :
  ~ (forall (pre cs rest : list string) (ma o mb : string),
       startswith file_marker ma = true -> startswith fence (strip o) = true ->
       Forall (fun l => content_line l = true) cs ->
       startswith file_marker mb = true -> marker_name mb <> marker_name ma ->
       Forall (fun l => newline_free l = true) (pre ++ ma :: o :: cs ++ mb :: rest) ->
       ~ In (marker_name ma)
           (map fst (apply_writes (py_join nl (pre ++ ma :: o :: cs ++ mb :: rest))))).
Proof.
  intros H.
  apply (H [] ["x"] ["```"; "y"; "```"; "FILE: a"; "```"; "z"; "```"] "FILE: a" "```" "FILE: b");
    try reflexivity.
  - repeat constructor.
  - vm_compute; discriminate.
  - repeat constructor.
  - vm_compute; tauto.
Qed.

(** A block still open at the end of the lines writes nothing. *)
Lemma scan_unterminated (st : scan_state) (cs : list string) (m o : string) :
  startswith file_marker m = true -> startswith fence (strip o) = true ->
  Forall (fun l => content_line l = true) cs ->
  scan st (m :: o :: cs) = [].
Proof.
  intros Hm Ho Hcs. rewrite scan_marker by exact Hm.
  assert (Ho' : startswith file_marker o = false).
  { destruct (startswith file_marker o) eqn:E; [|reflexivity].
    now rewrite (marker_not_fence o E) in Ho. }
  cbn [scan]. unfold step at 1; cbn [current_file code_block_active buffer].
  rewrite Ho', Ho, andb_true_l.
  rewrite <- (app_nil_r cs).
  destruct (truthy (Some (marker_name m))); cbn -[scan app].
  - rewrite scan_active_content by exact Hcs. reflexivity.
  - rewrite scan_idle_content by exact Hcs. reflexivity.
Qed.

(** C6 (as amended): a block whose opening fence is seen but whose closing
    fence never comes before the end of the response writes nothing and
    raises nothing of its own: the writes are exactly those of the text
    before its [FILE: ] line, so that file is written only if an earlier
    complete block named it, and the writing ends normally whenever those
    earlier writes can be opened. *)
Theorem C6_unterminated_block_dropped (h : host_fs) (pre cs : list string) (m o : string) (s : state) :
  startswith file_marker m = true -> startswith fence (strip o) = true ->
  Forall (fun l => content_line l = true) cs ->
  Forall (fun l => newline_free l = true) (pre ++ m :: o :: cs) ->
  apply_writes (py_join nl (pre ++ m :: o :: cs)) = scan scan_init pre
  /\ (writable h (scan scan_init pre) ->
      snd (perform_writes h (apply_writes (py_join nl (pre ++ m :: o :: cs))) s) = Ok tt).
Proof.
  intros Hm Ho Hcs Hnl.
  assert (E : apply_writes (py_join nl (pre ++ m :: o :: cs)) = scan scan_init pre).
  { unfold apply_writes. rewrite split_join by (apply app_cons_neq_nil || exact Hnl).
    rewrite scan_app, scan_unterminated by assumption. apply app_nil_r. }
  split; [exact E|]. intros Hw. rewrite E. now rewrite perform_writes_run.
Qed.

Lemma C6_unterminated_block_dropped_witness :
  apply_writes (py_join nl (["FILE: style.css"; "```css"; "a {}"; "```"] ++
                            "FILE: index.html" :: "```html" :: ["<p>"; "</p>"]))
  = scan scan_init ["FILE: style.css"; "```css"; "a {}"; "```"]
  /\ (writable example_host (scan scan_init ["FILE: style.css"; "```css"; "a {}"; "```"]) ->
      snd (perform_writes example_host
             (apply_writes (py_join nl (["FILE: style.css"; "```css"; "a {}"; "```"] ++
                            "FILE: index.html" :: "```html" :: ["<p>"; "</p>"])))
             (mk_state [] (fun _ => None))) = Ok tt).
Proof.
  apply (C6_unterminated_block_dropped example_host ["FILE: style.css"; "```css"; "a {}"; "```"]
           ["<p>"; "</p>"] "FILE: index.html" "```html" (mk_state [] (fun _ => None)));
    try reflexivity; repeat constructor.
Defined.

(** C6 as stated fails: the file of the unterminated block is written when
    an earlier complete block named the same file. *)
Lemma C6_counterexample :
  ~ (forall (pre cs : list string) (m o : string),
       startswith file_marker m = true -> startswith fence (strip o) = true ->
       marker_name m <> EmptyString ->
       Forall (fun l => content_line l = true) cs ->
       Forall (fun l => newline_free l = true) (pre ++ m :: o :: cs) ->
       ~ In (marker_name m) (map fst (apply_writes (py_join nl (pre ++ m :: o :: cs))))).
Proof.
  intros H.
  apply (H ["FILE: a"; "```"; "x"; "```"] ["y"] "FILE: a" "```"); try reflexivity.
  - vm_compute; discriminate.
  - repeat constructor.
  - repeat constructor.
  - vm_compute; tauto.
Qed.

(** C7: on the line [FILE: a FILE: b] the scanner takes the name ["a"]
    (Python's [split] cuts at every occurrence of the marker, and index 1
    keeps the first piece only), while the trimmed remainder after the
    marker is ["a FILE: b"]; the buffer is cleared and the block flag reset
    as claimed. *)
Theorem C7_marker_remainder_truncated (st : scan_state) :
  step st "FILE: a FILE: b" = (mk_scan (Some "a") false [], None)
  /\ strip (after_marker "FILE: a FILE: b") = "a FILE: b".
Proof. split; reflexivity. Qed.

(** C10: at every point of the scan, an open block has a current file that
    is a non-empty name read from an earlier [FILE: ] line; so every write
    targets such a name, and a response with no [FILE: ] line writes
    nothing. *)
Theorem C10_scan_invariant (text : string) :
  (forall pre post, py_split nl text = (pre ++ post)%list ->
     code_block_active (final_state scan_init pre) = true ->
     exists n, current_file (final_state scan_init pre) = Some n /\ n <> EmptyString /\
               from_marker pre n)
  /\ (forall f c, In (f, c) (apply_writes text) ->
        f <> EmptyString /\ from_marker (py_split nl text) f)
  /\ ((forall l, In l (py_split nl text) -> startswith file_marker l = false) ->
      apply_writes text = []).
Proof.
  assert (W : forall f c, In (f, c) (apply_writes text) ->
                f <> EmptyString /\ from_marker (py_split nl text) f).
  { intros f c Hin. exact (scan_writes_from_markers _ [] _ scan_inv_init f c Hin). }
  split; [|split; [exact W|]].
  - intros pre post _ Ha.
    destruct (final_state_inv pre [] scan_init scan_inv_init) as [Hcur Hact].
    specialize (Hact Ha).
    destruct (current_file (final_state scan_init pre)) as [n|] eqn:E; [|discriminate].
    exists n; split; [reflexivity|]. split; [now apply truthy_some|]. now apply Hcur.
  - intros Hno. destruct (apply_writes text) as [|[f c] ws] eqn:E; [reflexivity|].
    destruct (W f c) as [_ (l & Hin & Hm & _)]; [now left|].
    now rewrite (Hno l Hin) in Hm.
Qed.

(** * [main] as a whole *)

(** ** Derived notions *)

Definition supports_generation (m : model_info) : bool :=
  mem "generateContent" (supported_generation_methods m).

(** The names [available_models] ends with: those yielded before any
    exception, in order, that support [generateContent]. *)
Definition supported_names (ms : list model_info) : list string :=
  map name (filter supports_generation ms).

Definition found_events (ms : list model_info) : list event :=
  map (fun m => Print ("Found supported model: " ++ name m)) (filter supports_generation ms).

Definition listing_events (w : world) : list event :=
  ListModels :: (found_events (catalog w) ++
  match catalog_error w with
  | Some msg => [Print ("Error listing models: " ++ msg)]
  | None => []
  end)%list.

Definition selected (available : list string) : string :=
  match first_available priority_models available with
  | Some m => m
  | None => fallback_model
  end.

Definition selection_events (available : list string) : list event :=
  match first_available priority_models available with
  | Some _ => []
  | None => [Print "Could not find a preferred model in the list. Attempting 'gemini-pro' as fallback."]
  end.

Definition chosen (w : world) : string := selected (supported_names (catalog w)).

Definition content_of (o : option string) : string :=
  match o with Some c => universal_newlines c | None => missing_sentinel end.

Definition read_events (h : host_fs) (f : string) (fs : string -> option string) : list event :=
  PathExists f :: match fs (resolve h f) with Some _ => [ReadFile f] | None => [] end.

Definition prompt_of (w : world) (fs : string -> option string) : string :=
  build_prompt (fmt_opt (lookup "ISSUE_BODY" (environ w)))
    (content_of (fs (resolve (host w) "index.html")))
    (content_of (fs (resolve (host w) "style.css"))).

(** Everything [main] logs before the generation call, once the
    configuration is valid. *)
Definition pre_events (w : world) (k : string) (fs : string -> option string) : list event :=
  [EnvGet "GEMINI_API_KEY"; EnvGet "GITHUB_TOKEN"; EnvGet "REPO_NAME";
   EnvGet "ISSUE_NUMBER"; EnvGet "ISSUE_BODY"; Configure k;
   Print "Listing available models..."]
  ++ listing_events w ++ selection_events (supported_names (catalog w))
  ++ [Print ("Selected model: " ++ chosen w); NewModel (chosen w)]
  ++ read_events (host w) "index.html" fs ++ read_events (host w) "style.css" fs
  ++ [Print "Sending request to Gemini..."].

(** ** Running the pieces *)

Lemma bind_run {A B} (m : M A) (k : A -> M B) (s s' : state) (a : A) :
  m s = (s', Ok a) -> bind m k s = k a s'.
Proof. intros H; unfold bind; now rewrite H. Qed.

Lemma bind_raise {A B} (m : M A) (k : A -> M B) (s s' : state) (e : py_exc) :
  m s = (s', Raise e) -> bind m k s = (s', Raise e).
Proof. intros H; unfold bind; now rewrite H. Qed.

Lemma emit_run (ev : event) (s : state) :
  emit ev s = (mk_state (log s ++ [ev]) (files s), Ok tt).
Proof. reflexivity. Qed.

Lemma print_run (msg : string) (s : state) :
  print msg s = (mk_state (log s ++ [Print msg]) (files s), Ok tt).
Proof. reflexivity. Qed.

Lemma env_get_run (w : world) (key : string) (s : state) :
  env_get w key s = (mk_state (log s ++ [EnvGet key]) (files s), Ok (lookup key (environ w))).
Proof. reflexivity. Qed.

Lemma collect_models_run (ms : list model_info) (available : list string) (s : state) :
  collect_models ms available s
  = (mk_state (log s ++ found_events ms) (files s), Ok (available ++ supported_names ms)%list).
Proof.
  revert available s; induction ms as [|m ms IH]; intros available [lg fs].
  - cbn. rewrite !app_nil_r. reflexivity.
  - cbn [collect_models].
    change (mem "generateContent" (supported_generation_methods m)) with (supports_generation m).
    unfold found_events, supported_names; cbn [filter].
    destruct (supports_generation m).
    + rewrite (bind_run _ _ _ _ _ (print_run _ _)). rewrite IH. cbn [log files map].
      unfold found_events, supported_names.
      rewrite <- !app_assoc. reflexivity.
    + apply IH.
Qed.

Lemma list_available_run (w : world) (s : state) :
  list_available w s
  = (mk_state (log s ++ listing_events w) (files s), Ok (supported_names (catalog w))).
Proof.
  destruct s as [lg fs]. unfold list_available.
  rewrite (bind_run _ _ _ _ _ (emit_run _ _)).
  rewrite (bind_run _ _ _ _ _ (collect_models_run _ _ _)). cbn [log files app].
  unfold listing_events.
  destruct (catalog_error w) as [msg|].
  - rewrite (bind_run _ _ _ _ _ (print_run _ _)); cbn [log files].
    rewrite <- !app_assoc. reflexivity.
  - cbn. rewrite <- !app_assoc, app_nil_r. reflexivity.
Qed.

Lemma select_model_run (available : list string) (s : state) :
  select_model available s
  = (mk_state (log s ++ selection_events available) (files s), Ok (selected available)).
Proof.
  destruct s as [lg fs]. unfold select_model, selection_events, selected.
  destruct (first_available priority_models available).
  - cbn. now rewrite app_nil_r.
  - rewrite (bind_run _ _ _ _ _ (print_run _ _)). reflexivity.
Qed.

Lemma choose_model_run (w : world) (s : state) :
  choose_model w s
  = (mk_state (log s ++ listing_events w ++ selection_events (supported_names (catalog w))) (files s),
     Ok (chosen w)).
Proof.
  unfold choose_model.
  rewrite (bind_run _ _ _ _ _ (list_available_run _ _)), select_model_run.
  cbn [log files]. now rewrite <- app_assoc.
Qed.

Lemma read_files_run (h : host_fs) (s : state) :
  read_files h files_to_read [] s
  = (mk_state (log s ++ read_events h "index.html" (files s) ++ read_events h "style.css" (files s))
       (files s),
     Ok [("index.html", content_of (files s (resolve h "index.html")));
         ("style.css", content_of (files s (resolve h "style.css")))]).
Proof.
  destruct s as [lg fs]. unfold files_to_read, read_events, content_of; cbn [files log].
  unfold read_files, path_exists, read_file, bind, ret; cbn.
  destruct (fs (resolve h "index.html")) eqn:E1, (fs (resolve h "style.css")) eqn:E2; cbn;
    rewrite ?E1, ?E2; cbn; rewrite ?E1, ?E2; rewrite <- !app_assoc; reflexivity.
Qed.

Lemma py_int_run (n : string) (z : Z) (s : state) :
  parse_int n = Some z -> py_int (Some n) s = (s, Ok z).
Proof. intros H; unfold py_int; now rewrite H. Qed.

Lemma generate_ok (w : world) (m p text : string) (s : state) :
  reply w m p = Some text ->
  generate w m p s = (mk_state (log s ++ [Generate m p]) (files s), Ok text).
Proof. intros H; unfold generate, bind, emit; cbn [log files]; now rewrite H. Qed.

Lemma generate_err (w : world) (m p : string) (s : state) :
  reply w m p = None ->
  generate w m p s = (mk_state (log s ++ [Generate m p]) (files s), Raise ProviderError).
Proof. intros H; unfold generate, bind, emit; cbn [log files]; now rewrite H. Qed.

Definition no_key_msg : string := "Error: GEMINI_API_KEY not found.".

Lemma main_no_key (w : world) (s : state) :
  lookup "GEMINI_API_KEY" (environ w) = None \/ lookup "GEMINI_API_KEY" (environ w) = Some EmptyString ->
  main w s = (mk_state (log s ++ [EnvGet "GEMINI_API_KEY"; Print no_key_msg]) (files s), Ok tt).
Proof.
  intros H. unfold main. rewrite (bind_run _ _ _ _ _ (env_get_run _ _ _)).
  destruct H as [H|H]; rewrite H; cbn [String.eqb]; rewrite print_run; cbn [log files];
    now rewrite <- app_assoc.
Qed.

Lemma main_bad_issue (w : world) (s : state) (k : string) :
  lookup "GEMINI_API_KEY" (environ w) = Some k -> k <> EmptyString ->
  (lookup "ISSUE_NUMBER" (environ w) = None \/
   exists v, lookup "ISSUE_NUMBER" (environ w) = Some v /\ parse_int v = None) ->
  exists e, (e = TypeError \/ e = ValueError) /\
    main w s = (mk_state (log s ++ [EnvGet "GEMINI_API_KEY"; EnvGet "GITHUB_TOKEN";
                                   EnvGet "REPO_NAME"; EnvGet "ISSUE_NUMBER"]) (files s),
                Raise e).
Proof.
  intros Hk Hne Hn. apply String.eqb_neq in Hne.
  unfold main. rewrite (bind_run _ _ _ _ _ (env_get_run _ _ _)). rewrite Hk, Hne.
  rewrite (bind_run _ _ _ _ _ (env_get_run _ _ _)).
  rewrite (bind_run _ _ _ _ _ (env_get_run _ _ _)).
  rewrite (bind_run _ _ _ _ _ (env_get_run _ _ _)). cbn [log files].
  destruct Hn as [Hn | (v & Hn & Hp)]; rewrite Hn.
  - exists TypeError; split; [now left|].
    erewrite bind_raise by reflexivity. cbn [log files]. now rewrite <- !app_assoc.
  - exists ValueError; split; [now right|].
    erewrite bind_raise by (unfold py_int; now rewrite Hp). cbn [log files].
    now rewrite <- !app_assoc.
Qed.

Lemma main_generate_run (w : world) (s : state) (k n : string) (z : Z) :
  lookup "GEMINI_API_KEY" (environ w) = Some k -> k <> EmptyString ->
  lookup "ISSUE_NUMBER" (environ w) = Some n -> parse_int n = Some z ->
  main w s =
  match reply w (chosen w) (prompt_of w (files s)) with
  | Some text =>
      perform_writes (host w) (apply_writes text)
        (mk_state (log s ++ pre_events w k (files s)
                     ++ [Generate (chosen w) (prompt_of w (files s));
                         Print "Received response from Gemini."]) (files s))
  | None =>
      (mk_state (log s ++ pre_events w k (files s)
                   ++ [Generate (chosen w) (prompt_of w (files s))]) (files s),
       Raise ProviderError)
  end.
Proof.
  intros Hk Hne Hn Hz. apply String.eqb_neq in Hne.
  unfold main. rewrite (bind_run _ _ _ _ _ (env_get_run _ _ _)). rewrite Hk, Hne.
  rewrite (bind_run _ _ _ _ _ (env_get_run _ _ _)).
  rewrite (bind_run _ _ _ _ _ (env_get_run _ _ _)).
  rewrite (bind_run _ _ _ _ _ (env_get_run _ _ _)). rewrite Hn.
  rewrite (bind_run _ _ _ _ _ (py_int_run _ _ _ Hz)).
  rewrite (bind_run _ _ _ _ _ (env_get_run _ _ _)).
  rewrite (bind_run _ _ _ _ _ (emit_run _ _)).
  rewrite (bind_run _ _ _ _ _ (print_run _ _)).
  rewrite (bind_run _ _ _ _ _ (choose_model_run _ _)).
  rewrite (bind_run _ _ _ _ _ (print_run _ _)).
  rewrite (bind_run _ _ _ _ _ (emit_run _ _)).
  rewrite (bind_run _ _ _ _ _ (read_files_run _ _)).
  rewrite (bind_run _ _ _ _ _ (print_run _ _)).
  cbn [log files].
  destruct (reply w (chosen w) (prompt_of w (files s))) as [text|] eqn:R.
  - erewrite bind_run by (apply generate_ok; exact R).
    rewrite (bind_run _ _ _ _ _ (print_run _ _)). cbn [log files].
    unfold pre_events. rewrite <- !app_assoc. reflexivity.
  - erewrite bind_raise by (apply generate_err; exact R).
    cbn [log files].
    unfold pre_events. rewrite <- !app_assoc. reflexivity.
Qed.

(** ** Lists of events and of names *)

Lemma mem_In (x : string) (xs : list string) : mem x xs = true <-> In x xs.
Proof.
  unfold mem. rewrite existsb_exists. split.
  - intros (y & Hy & E). apply String.eqb_eq in E. now subst.
  - intros H. exists x. split; [exact H | apply String.eqb_refl].
Qed.

Lemma first_available_first (pre post av : list string) (p : string) :
  In p av -> (forall q, In q pre -> ~ In q av) ->
  first_available (pre ++ p :: post) av = Some p.
Proof.
  intros Hp Hpre. induction pre as [|q pre IH]; cbn [app first_available].
  - now rewrite (proj2 (mem_In p av) Hp).
  - destruct (mem q av) eqn:E.
    + apply mem_In in E. exfalso. apply (Hpre q); [now left | exact E].
    + apply IH. intros r Hr. apply Hpre; now right.
Qed.

Lemma first_available_none (prio av : list string) :
  (forall q, In q prio -> ~ In q av) -> first_available prio av = None.
Proof.
  induction prio as [|q prio IH]; intros H; [reflexivity|]. cbn [first_available].
  destruct (mem q av) eqn:E.
  - apply mem_In in E. exfalso. apply (H q); [now left | exact E].
  - apply IH. intros r Hr. apply H; now right.
Qed.




(** Events that touch nothing but the two target files for reading. *)
Definition benign (e : event) : Prop :=
  match e with
  | WriteFile _ _ => False
  | PathExists p | ReadFile p => p = "index.html" \/ p = "style.css"
  | _ => True
  end.

Lemma pre_events_benign (w : world) (k : string) (fs : string -> option string) :
  Forall benign (pre_events w k fs).
Proof.
  unfold pre_events, listing_events, found_events, selection_events, read_events.
  destruct (catalog_error w), (first_available priority_models (supported_names (catalog w))),
    (fs (resolve (host w) "index.html")), (fs (resolve (host w) "style.css"));
  repeat match goal with
  | |- Forall _ (_ ++ _)%list => apply Forall_app; split
  | |- Forall _ (_ :: _) => constructor
  | |- Forall _ [] => constructor
  | |- Forall _ (map _ _) =>
      apply Forall_forall; intros ? (? & <- & _)%in_map_iff
  | |- benign _ => cbn; auto
  end.
Qed.

Lemma write_events_In (ws : list (string * string)) (e : event) :
  In e (write_events ws) ->
  (exists f c, e = WriteFile f c /\ In (f, c) ws) \/ (exists msg, e = Print msg).
Proof.
  induction ws as [|[f c] ws IH]; intros H; [destruct H|].
  cbn in H. destruct H as [<-|[<-|H]].
  - right; eauto.
  - left; exists f, c; split; [reflexivity | now left].
  - destruct (IH H) as [(g & d & -> & Hin)|Hp]; [left; exists g, d; split; [reflexivity|now right] | now right].
Qed.


Lemma replay_block (h : host_fs) (ws1 ws2 : list (string * string)) (f c : string)
    (fs : string -> option string) :
  ~ In (resolve h f) (targets h ws2) -> replay h (ws1 ++ (f, c) :: ws2) fs (resolve h f) = Some c.
Proof.
  intros H. rewrite replay_app; cbn [replay]. rewrite replay_notin by exact H.
  now rewrite String.eqb_refl.
Qed.

(** * Claims about [main] *)

(** C3 (as amended): during one run, the files checked and read are only
    [index.html] and [style.css]; but every file written is named by a
    [FILE: ] line of the model's reply whose block was closed, with its
    block's content: any non-empty name, not only the two target files. *)
Theorem C3_written_paths_from_reply (w : world) (fs : string -> option string) :
  (forall p, In (PathExists p) (log (fst (run w fs))) \/ In (ReadFile p) (log (fst (run w fs))) ->
     p = "index.html" \/ p = "style.css")
  /\ (forall f c, In (WriteFile f c) (log (fst (run w fs))) ->
        f <> EmptyString /\
        exists text, reply w (chosen w) (prompt_of w fs) = Some text /\
                     In (f, c) (apply_writes text) /\ from_marker (py_split nl text) f).
Proof.
  assert (Benign : forall lg, Forall benign lg ->
            (forall p, In (PathExists p) lg \/ In (ReadFile p) lg ->
               p = "index.html" \/ p = "style.css")
            /\ (forall f c, ~ In (WriteFile f c) lg)).
  { intros lg H; rewrite Forall_forall in H. split.
    - intros p [Hp|Hp]; exact (H _ Hp).
    - intros f c Hw; exact (H _ Hw). }
  assert (Short : forall lg, Forall benign lg -> log (fst (run w fs)) = lg ->
            (forall p, In (PathExists p) (log (fst (run w fs))) \/ In (ReadFile p) (log (fst (run w fs))) ->
               p = "index.html" \/ p = "style.css")
            /\ (forall f c, In (WriteFile f c) (log (fst (run w fs))) ->
                  f <> EmptyString /\
                  exists text, reply w (chosen w) (prompt_of w fs) = Some text /\
                               In (f, c) (apply_writes text) /\ from_marker (py_split nl text) f)).
  { intros lg Hb ->. destruct (Benign lg Hb) as [H1 H2]. split; [exact H1|].
    intros f c Hw; exfalso; exact (H2 f c Hw). }
  destruct (lookup "GEMINI_API_KEY" (environ w)) as [k|] eqn:Hk;
    [destruct (String.eqb_spec k EmptyString) as [Hke|Hkne]|].
  - subst k. apply (Short [EnvGet "GEMINI_API_KEY"; Print no_key_msg]); [repeat constructor|].
    unfold run; rewrite main_no_key by now right. reflexivity.
  - destruct (lookup "ISSUE_NUMBER" (environ w)) as [n|] eqn:Hn;
      [destruct (parse_int n) as [z|] eqn:Hz|].
    + unfold run. rewrite (main_generate_run w _ k n z Hk Hkne Hn Hz). cbn [files log app].
      pose proof (pre_events_benign w k fs) as Hpre.
      destruct (reply w (chosen w) (prompt_of w fs)) as [text|] eqn:R; cbn [fst log].
      * destruct (perform_writes_effect (host w) (apply_writes text)
                    (mk_state (pre_events w k fs ++ [Generate (chosen w) (prompt_of w fs);
                                                    Print "Received response from Gemini."]) fs))
          as (evs & Hlog & Hev & _).
        rewrite Hlog; cbn [log]. rewrite <- app_assoc; cbn [app].
        split.
        -- intros p Hp.
           assert (G : forall e, In e (pre_events w k fs ++
                        Generate (chosen w) (prompt_of w fs) :: Print "Received response from Gemini."
                        :: evs)%list ->
                        e = PathExists p \/ e = ReadFile p -> p = "index.html" \/ p = "style.css").
           { intros e He Ee. rewrite Forall_forall in Hpre.
             apply in_app_or in He as [He|He]; [destruct Ee as [->| ->]; exact (Hpre _ He)|].
             destruct He as [<-|[<-|He]]; [destruct Ee; discriminate|destruct Ee; discriminate|].
             destruct (write_events_In _ _ (Hev _ He)) as [(g & d & -> & _)|(msg & ->)];
               destruct Ee; discriminate. }
           destruct Hp as [Hp|Hp]; [exact (G _ Hp (or_introl eq_refl)) | exact (G _ Hp (or_intror eq_refl))].
        -- intros f c Hw. rewrite Forall_forall in Hpre.
           apply in_app_or in Hw as [Hw|Hw]; [destruct (Hpre _ Hw)|].
           destruct Hw as [Hw|[Hw|Hw]]; [discriminate|discriminate|].
           destruct (write_events_In _ _ (Hev _ Hw)) as [(g & d & [= <- <-] & Hin)|(msg & Hm)];
             [|discriminate].
           destruct (scan_writes_from_markers _ [] _ scan_inv_init f c Hin) as [Hne Hfm].
           split; [exact Hne|]. exists text. split; [reflexivity|]. split; [exact Hin | exact Hfm].
      * assert (Hb : Forall benign (pre_events w k fs ++ [Generate (chosen w) (prompt_of w fs)])%list).
        { apply Forall_app; split; [exact Hpre | repeat constructor]. }
        destruct (Benign _ Hb) as [H1 H2]. split; [exact H1|].
        intros f c Hw; exfalso; exact (H2 f c Hw).
    + destruct (main_bad_issue w (mk_state [] fs) k Hk Hkne (or_intror (ex_intro _ n (conj Hn Hz))))
        as (e & _ & E).
      apply (Short [EnvGet "GEMINI_API_KEY"; EnvGet "GITHUB_TOKEN"; EnvGet "REPO_NAME"; EnvGet "ISSUE_NUMBER"]);
        [repeat constructor|]. unfold run; now rewrite E.
    + destruct (main_bad_issue w (mk_state [] fs) k Hk Hkne (or_introl Hn)) as (e & _ & E).
      apply (Short [EnvGet "GEMINI_API_KEY"; EnvGet "GITHUB_TOKEN"; EnvGet "REPO_NAME"; EnvGet "ISSUE_NUMBER"]);
        [repeat constructor|]. unfold run; now rewrite E.
  - apply (Short [EnvGet "GEMINI_API_KEY"; Print no_key_msg]); [repeat constructor|].
    unfold run; rewrite main_no_key by now left. reflexivity.
Qed.

(** C3 as stated fails: a reply naming another file makes [main] write it. *)
Lemma C3_counterexample :
  ~ (forall (w : world) (fs : string -> option string) (f c : string),
       In (WriteFile f c) (log (fst (run w fs))) -> f = "index.html" \/ f = "style.css").
Proof.
  intros H.
  destruct (H (mk_world [("GEMINI_API_KEY", "key"); ("ISSUE_NUMBER", "7")] [] None
                 (fun _ _ => Some ("FILE: notes.txt" ++ nl ++ "```" ++ nl ++ "hi" ++ nl ++ "```")) example_host)
              (fun _ => None) "notes.txt" "hi") as [E|E]; [ | discriminate | discriminate].
  vm_compute. repeat (first [left; reflexivity | right]).
Qed.

(** C4: without the API key (unset or empty), [main] prints its message
    and returns normally; it reads no other variable, touches no file and
    calls no provider. *)
Theorem C4_missing_key_no_effects (w : world) (fs : string -> option string) :
  lookup "GEMINI_API_KEY" (environ w) = None \/ lookup "GEMINI_API_KEY" (environ w) = Some EmptyString ->
  run w fs = (mk_state [EnvGet "GEMINI_API_KEY"; Print no_key_msg] fs, Ok tt).
Proof. intros H. unfold run. now rewrite main_no_key by exact H. Qed.

Lemma C4_missing_key_no_effects_witness :
  run (mk_world [("GEMINI_API_KEY", EmptyString); ("ISSUE_NUMBER", "1")] [] None (fun _ _ => Some "FILE: x") example_host)
      (fun _ => Some "old")
  = (mk_state [EnvGet "GEMINI_API_KEY"; Print no_key_msg] (fun _ => Some "old"), Ok tt).
Proof. apply C4_missing_key_no_effects. right. reflexivity. Defined.

(** C5 (as amended): the selected model is the first entry of the fixed
    8-entry priority list found among the names collected from the
    enumeration, skipping absent entries, and ['gemini-pro'] when none is
    there. When the enumeration raises, the exception is caught and
    printed, and the names yielded before it still take part in the
    choice. Selection never raises. *)
Theorem C5_model_selection (w : world) (s : state) :
  choose_model w s
  = (mk_state (log s ++ listing_events w ++ selection_events (supported_names (catalog w))) (files s),
     Ok (selected (supported_names (catalog w))))
  /\ List.length priority_models = 8
  /\ (forall pre p post, priority_models = (pre ++ p :: post)%list ->
        In p (supported_names (catalog w)) ->
        (forall q, In q pre -> ~ In q (supported_names (catalog w))) ->
        selected (supported_names (catalog w)) = p)
  /\ ((forall q, In q priority_models -> ~ In q (supported_names (catalog w))) ->
      selected (supported_names (catalog w)) = fallback_model)
  /\ (forall msg, catalog_error w = Some msg ->
        In (Print ("Error listing models: " ++ msg)) (listing_events w)).
Proof.
  split; [apply choose_model_run|]. split; [reflexivity|]. split; [|split].
  - intros pre p post E Hp Hpre. unfold selected. rewrite E.
    now rewrite first_available_first.
  - intros H. unfold selected. now rewrite first_available_none.
  - intros msg E. unfold listing_events. rewrite E. right.
    apply in_or_app. right. now left.
Qed.

(** C5 as stated fails: the enumeration yields a preferred model and then
    raises, and that model is selected rather than ['gemini-pro']. *)
Lemma C5_counterexample :
  ~ (forall (w : world) (s : state),
       catalog_error w <> None -> snd (choose_model w s) = Ok fallback_model).
Proof.
  intros H.
  specialize (H (mk_world [] [mk_model "models/gemini-2.5-pro" ["generateContent"]]
                   (Some "page 2 failed") (fun _ _ => None) example_host)
                (mk_state [] (fun _ => None))).
  vm_compute in H. discriminate (H ltac:(discriminate)).
Qed.

(** C8: with the API key present, a missing or non-numeric
    [ISSUE_NUMBER] makes [int(...)] raise ([TypeError] or [ValueError]);
    nothing in [main] catches it, so the run ends with that exception right
    after the four environment reads, with no file or provider access. *)
Theorem C8_bad_issue_number_uncaught (w : world) (fs : string -> option string) (k : string) :
  lookup "GEMINI_API_KEY" (environ w) = Some k -> k <> EmptyString ->
  (lookup "ISSUE_NUMBER" (environ w) = None \/
   exists v, lookup "ISSUE_NUMBER" (environ w) = Some v /\ parse_int v = None) ->
  exists e, (e = TypeError \/ e = ValueError) /\
    run w fs = (mk_state [EnvGet "GEMINI_API_KEY"; EnvGet "GITHUB_TOKEN";
                          EnvGet "REPO_NAME"; EnvGet "ISSUE_NUMBER"] fs, Raise e).
Proof.
  intros Hk Hne Hn. unfold run.
  exact (main_bad_issue w (mk_state [] fs) k Hk Hne Hn).
Qed.

Lemma C8_bad_issue_number_uncaught_witness :
  exists e, (e = TypeError \/ e = ValueError) /\
    run (mk_world [("GEMINI_API_KEY", "key"); ("ISSUE_NUMBER", "12a")] [] None (fun _ _ => None) example_host)
        (fun _ => None)
    = (mk_state [EnvGet "GEMINI_API_KEY"; EnvGet "GITHUB_TOKEN";
                 EnvGet "REPO_NAME"; EnvGet "ISSUE_NUMBER"] (fun _ => None), Raise e).
Proof.
  apply (C8_bad_issue_number_uncaught _ _ "key"); [reflexivity | discriminate |].
  right. exists "12a". split; reflexivity.
Defined.






(** * Further properties of [main] *)

(** ** Helpers *)

Definition no_marker (l : string) : Prop := startswith file_marker l = false.

(** Before any marker line, every line is ignored and the state stays initial. *)
Lemma scan_init_no_marker (pre rest : list string) :
  Forall no_marker pre -> scan scan_init (pre ++ rest) = scan scan_init rest.
Proof.
  intros H; induction H as [|l pre Hl Hpre IH]; [reflexivity|].
  cbn [app scan]. unfold step at 1; unfold no_marker in Hl; rewrite Hl.
  cbn [truthy current_file scan_init code_block_active]. rewrite andb_false_r.
  exact IH.
Qed.

(** After a marker with an empty name, nothing opens until the next marker. *)
Lemma scan_empty_name (cs rest : list string) :
  Forall no_marker cs ->
  scan (mk_scan (Some EmptyString) false []) (cs ++ rest)
  = scan (mk_scan (Some EmptyString) false []) rest.
Proof.
  intros H; induction H as [|l cs Hl Hcs IH]; [reflexivity|].
  cbn [app scan]. unfold step at 1; unfold no_marker in Hl; rewrite Hl.
  cbn [truthy current_file code_block_active]. rewrite andb_false_r.
  exact IH.
Qed.

Lemma content_no_marker (cs : list string) :
  Forall (fun l => content_line l = true) cs -> Forall no_marker cs.
Proof.
  intros H; induction H; constructor; [|assumption].
  now apply content_line_parts.
Qed.

Lemma fence_no_marker (l : string) :
  startswith fence (strip l) = true -> no_marker l.
Proof.
  intros H; unfold no_marker. destruct (startswith file_marker l) eqn:E; [|reflexivity].
  now rewrite (marker_not_fence l E) in H.
Qed.

(** Two blocks, with marker-free text between them. *)
Lemma scan_two_blocks (pre mid suf cs1 cs2 : list string) (m1 o1 c1 m2 o2 c2 : string) :
  startswith file_marker m1 = true -> marker_name m1 <> EmptyString ->
  startswith fence (strip o1) = true -> Forall (fun l => content_line l = true) cs1 ->
  startswith fence (strip c1) = true -> Forall no_marker mid ->
  startswith file_marker m2 = true -> marker_name m2 <> EmptyString ->
  startswith fence (strip o2) = true -> Forall (fun l => content_line l = true) cs2 ->
  startswith fence (strip c2) = true ->
  scan scan_init (pre ++ m1 :: o1 :: cs1 ++ c1 :: mid ++ m2 :: o2 :: cs2 ++ c2 :: suf)
  = (scan scan_init pre ++ (marker_name m1, py_join nl cs1)
       :: (marker_name m2, py_join nl cs2) :: scan scan_init suf)%list.
Proof.
  intros. rewrite scan_app. f_equal.
  rewrite scan_block by assumption. f_equal.
  rewrite scan_init_no_marker by assumption.
  now apply scan_block.
Qed.

Lemma replay_last2 (h : host_fs) (ws : list (string * string)) (f g c d : string)
    (fs : string -> option string) :
  resolve h f <> resolve h g ->
  replay h (ws ++ [(f, c); (g, d)]) fs (resolve h f) = Some c.
Proof.
  intros Hfg. rewrite replay_app; cbn [replay].
  apply String.eqb_neq in Hfg. rewrite Hfg. now rewrite String.eqb_refl.
Qed.

Lemma first_available_some (prio av : list string) (p : string) :
  first_available prio av = Some p -> In p prio /\ In p av.
Proof.
  induction prio as [|q prio IH]; intros H; [discriminate|].
  cbn [first_available] in H. destruct (mem q av) eqn:E.
  - injection H as <-. split; [now left | now apply mem_In].
  - destruct (IH H) as [H1 H2]. split; [now right | exact H2].
Qed.


(** ** The response applier *)

(** Two complete blocks for different files, separated by marker-free
    text, both take effect: each file receives its own block's content
    lines, when the writes before them and their own [open]s succeed and
    no later block targets either file (whatever the later writes do). *)
Theorem two_blocks_both_written (h : host_fs) (pre mid suf cs1 cs2 : list string)
    (m1 o1 c1 m2 o2 c2 : string) (s : state) :
  startswith file_marker m1 = true -> marker_name m1 <> EmptyString ->
  startswith fence (strip o1) = true -> Forall (fun l => content_line l = true) cs1 ->
  startswith fence (strip c1) = true -> Forall no_marker mid ->
  startswith file_marker m2 = true -> marker_name m2 <> EmptyString ->
  startswith fence (strip o2) = true -> Forall (fun l => content_line l = true) cs2 ->
  startswith fence (strip c2) = true ->
  resolve h (marker_name m1) <> resolve h (marker_name m2) ->
  Forall (fun l => newline_free l = true)
    (pre ++ m1 :: o1 :: cs1 ++ c1 :: mid ++ m2 :: o2 :: cs2 ++ c2 :: suf) ->
  writable h (scan scan_init pre) ->
  write_error h (marker_name m1) = None -> write_error h (marker_name m2) = None ->
  ~ In (resolve h (marker_name m1)) (targets h (scan scan_init suf)) ->
  ~ In (resolve h (marker_name m2)) (targets h (scan scan_init suf)) ->
  files (fst (perform_writes h (apply_writes (py_join nl
      (pre ++ m1 :: o1 :: cs1 ++ c1 :: mid ++ m2 :: o2 :: cs2 ++ c2 :: suf))) s))
    (resolve h (marker_name m1)) = Some (py_join nl cs1)
  /\ files (fst (perform_writes h (apply_writes (py_join nl
      (pre ++ m1 :: o1 :: cs1 ++ c1 :: mid ++ m2 :: o2 :: cs2 ++ c2 :: suf))) s))
    (resolve h (marker_name m2)) = Some (py_join nl cs2).
Proof.
  intros Hm1 Hn1 Ho1 Hcs1 Hc1 Hmid Hm2 Hn2 Ho2 Hcs2 Hc2 Hd Hnl Hpre Hw1 Hw2 Hs1 Hs2.
  unfold apply_writes. rewrite split_join by (apply app_cons_neq_nil || exact Hnl).
  rewrite scan_two_blocks by assumption.
  replace (scan scan_init pre ++ (marker_name m1, py_join nl cs1)
             :: (marker_name m2, py_join nl cs2) :: scan scan_init suf)%list
    with ((scan scan_init pre ++ [(marker_name m1, py_join nl cs1); (marker_name m2, py_join nl cs2)])
             ++ scan scan_init suf)%list
    by now rewrite <- app_assoc.
  rewrite perform_writes_app_ok.
  2: { unfold writable. apply Forall_app; split; [exact Hpre | repeat constructor; assumption]. }
  split; rewrite perform_writes_files_notin by assumption; cbn [files].
  - now apply replay_last2.
  - replace (scan scan_init pre ++ [(marker_name m1, py_join nl cs1); (marker_name m2, py_join nl cs2)])%list
      with ((scan scan_init pre ++ [(marker_name m1, py_join nl cs1)]) ++ [(marker_name m2, py_join nl cs2)])%list
      by now rewrite <- app_assoc.
    apply replay_last.
Qed.

Lemma two_blocks_both_written_witness :
  files (fst (perform_writes example_host (apply_writes (py_join nl
      ([] ++ "FILE: index.html" :: "```html" :: ["<p>a</p>"] ++ "```" ::
       ["Here is the CSS:"] ++ "FILE: style.css" :: "```css" :: ["p {}"] ++ "```" :: [])))
      (mk_state [] (fun _ => None))))
    (resolve example_host (marker_name "FILE: index.html")) = Some (py_join nl ["<p>a</p>"])
  /\ files (fst (perform_writes example_host (apply_writes (py_join nl
      ([] ++ "FILE: index.html" :: "```html" :: ["<p>a</p>"] ++ "```" ::
       ["Here is the CSS:"] ++ "FILE: style.css" :: "```css" :: ["p {}"] ++ "```" :: [])))
      (mk_state [] (fun _ => None))))
    (resolve example_host (marker_name "FILE: style.css")) = Some (py_join nl ["p {}"]).
Proof.
  apply two_blocks_both_written; try reflexivity; try (vm_compute; discriminate);
    try (vm_compute; tauto); repeat constructor.
Defined.



(** Text before the first [FILE: ] line (a conversational preamble, even
    one with fences in it) has no effect on what the response writes. *)
Theorem preamble_ignored (pre rest : list string) :
  Forall no_marker pre -> rest <> [] ->
  Forall (fun l => newline_free l = true) (pre ++ rest) ->
  apply_writes (py_join nl (pre ++ rest)) = apply_writes (py_join nl rest).
Proof.
  intros Hpre Hne Hnl. unfold apply_writes.
  rewrite split_join.
  - rewrite split_join.
    + now apply scan_init_no_marker.
    + exact Hne.
    + now apply Forall_app in Hnl as [_ Hnl].
  - destruct pre; [exact Hne | discriminate].
  - exact Hnl.
Qed.

Lemma preamble_ignored_witness :
  apply_writes (py_join nl (["Sure!"; "```"; "junk"; "```"] ++ ["FILE: style.css"; "```"; "a {}"; "```"]))
  = apply_writes (py_join nl ["FILE: style.css"; "```"; "a {}"; "```"]).
Proof.
  apply preamble_ignored; [repeat constructor | discriminate | repeat constructor].
Defined.

(** A [FILE: ] line whose name is blank after trimming opens nothing: the
    lines up to the next [FILE: ] line (or the end) write nothing, fences
    included. *)
Theorem blank_marker_name_opens_nothing (st : scan_state) (m : string) (ls : list string) :
  startswith file_marker m = true -> marker_name m = EmptyString ->
  Forall no_marker ls ->
  scan st (m :: ls) = []
  /\ (forall m' rest, startswith file_marker m' = true ->
        scan st (m :: ls ++ m' :: rest) = scan scan_init (m' :: rest)).
Proof.
  intros Hm He Hls. split.
  - rewrite scan_marker, He by exact Hm.
    rewrite <- (app_nil_r ls). rewrite scan_empty_name by exact Hls. reflexivity.
  - intros m' rest Hm'. rewrite scan_marker, He by exact Hm.
    rewrite scan_empty_name by exact Hls. now apply scan_marker_any.
Qed.

Lemma blank_marker_name_opens_nothing_witness :
  scan scan_init ["FILE:   "; "```"; "x"; "```"] = []
  /\ (forall m' rest, startswith file_marker m' = true ->
        scan scan_init ("FILE:   " :: ["```"; "x"; "```"] ++ m' :: rest)
        = scan scan_init (m' :: rest)).
Proof.
  apply blank_marker_name_opens_nothing; [reflexivity | reflexivity | repeat constructor].
Defined.

(** A fence line inside a block's content closes the block early: the file
    gets only the lines before it, and the lines after it up to the next
    fence line (which is then ignored) are dropped. *)
Theorem inner_fence_truncates (st : scan_state) (m o f1 f2 : string) (cs1 cs2 rest : list string) :
  startswith file_marker m = true -> marker_name m <> EmptyString ->
  startswith fence (strip o) = true -> Forall (fun l => content_line l = true) cs1 ->
  startswith fence (strip f1) = true -> Forall (fun l => content_line l = true) cs2 ->
  startswith fence (strip f2) = true ->
  scan st (m :: o :: cs1 ++ f1 :: cs2 ++ f2 :: rest)
  = (marker_name m, py_join nl cs1) :: scan scan_init rest.
Proof.
  intros Hm Hn Ho Hcs1 Hf1 Hcs2 Hf2.
  rewrite scan_block by assumption. f_equal.
  rewrite scan_init_no_marker by now apply content_no_marker.
  pose proof (fence_no_marker f2 Hf2) as Hf2'. unfold no_marker in Hf2'.
  cbn [scan]. unfold step at 1; rewrite Hf2'.
  cbn [truthy current_file scan_init code_block_active]. now rewrite andb_false_r.
Qed.

Lemma inner_fence_truncates_witness :
  scan scan_init ("FILE: index.html" :: "```html" :: ["<pre>"] ++ "```js" :: ["x = 1"] ++ "```" :: ["</pre>"; "```"])
  = (marker_name "FILE: index.html", py_join nl ["<pre>"]) :: scan scan_init ["</pre>"; "```"].
Proof.
  apply inner_fence_truncates; try reflexivity; try (vm_compute; discriminate); repeat constructor.
Defined.

(** ** Runs of [main] *)

(** Every run either only reads (and leaves the files as they were), or
    reaches the reply and applies its writes. *)
Lemma run_shapes (w : world) (fs : string -> option string) :
  (Forall benign (log (fst (run w fs))) /\ files (fst (run w fs)) = fs)
  \/ exists k text, reply w (chosen w) (prompt_of w fs) = Some text /\
       run w fs = perform_writes (host w) (apply_writes text)
                    (mk_state (pre_events w k fs
                       ++ [Generate (chosen w) (prompt_of w fs);
                           Print "Received response from Gemini."]) fs).
Proof.
  destruct (lookup "GEMINI_API_KEY" (environ w)) as [k|] eqn:Hk;
    [destruct (String.eqb_spec k EmptyString) as [Hke|Hkne]|].
  - subst k. left. unfold run; rewrite main_no_key by now right.
    split; [repeat constructor | reflexivity].
  - destruct (lookup "ISSUE_NUMBER" (environ w)) as [n|] eqn:Hn;
      [destruct (parse_int n) as [z|] eqn:Hz|].
    + unfold run. rewrite (main_generate_run w _ k n z Hk Hkne Hn Hz). cbn [files log app].
      destruct (reply w (chosen w) (prompt_of w fs)) as [text|] eqn:R.
      * right. exists k, text. split; reflexivity.
      * left. cbn [fst log files]. split; [|reflexivity].
        apply Forall_app; split; [apply pre_events_benign | repeat constructor].
    + destruct (main_bad_issue w (mk_state [] fs) k Hk Hkne (or_intror (ex_intro _ n (conj Hn Hz))))
        as (e & _ & E).
      left. unfold run; rewrite E. split; [repeat constructor | reflexivity].
    + destruct (main_bad_issue w (mk_state [] fs) k Hk Hkne (or_introl Hn)) as (e & _ & E).
      left. unfold run; rewrite E. split; [repeat constructor | reflexivity].
  - left. unfold run; rewrite main_no_key by now left.
    split; [repeat constructor | reflexivity].
Qed.

Lemma benign_no_write (lg : list event) (f c : string) :
  Forall benign lg -> ~ In (WriteFile f c) lg.
Proof. intros H Hin. rewrite Forall_forall in H. exact (H _ Hin). Qed.

(** A run only changes a file by writing it: a file that no logged write
    targets keeps its original state (present or absent), a file's new
    content is the content of a logged write targeting it, and no file is
    ever deleted. *)
Theorem files_change_only_by_writes (w : world) (fs : string -> option string) (p : string) :
  ((forall f c, In (WriteFile f c) (log (fst (run w fs))) -> resolve (host w) f <> p) ->
     files (fst (run w fs)) p = fs p)
  /\ (forall c, files (fst (run w fs)) p = Some c ->
        fs p = Some c
        \/ exists f, resolve (host w) f = p /\ In (WriteFile f c) (log (fst (run w fs))))
  /\ (fs p <> None -> files (fst (run w fs)) p <> None).
Proof.
  assert (G : files (fst (run w fs)) p = fs p
              \/ exists f c, In (WriteFile f c) (log (fst (run w fs))) /\ resolve (host w) f = p
                           /\ files (fst (run w fs)) p = Some c).
  { destruct (run_shapes w fs) as [[_ E]|(k & text & _ & E)].
    - left. now rewrite E.
    - rewrite E.
      destruct (perform_writes_effect (host w) (apply_writes text)
                  (mk_state (pre_events w k fs ++ [Generate (chosen w) (prompt_of w fs);
                                                  Print "Received response from Gemini."]) fs))
        as (evs & Hlog & _ & Hfs).
      destruct (Hfs p) as [H|(f & c & Hin & Hr & H)]; [now left|].
      right. exists f, c. rewrite Hlog. split; [apply in_or_app; now right|]. split; assumption. }
  split; [|split].
  - intros Hn. destruct G as [G|(f & c & Hin & Hr & _)]; [exact G | destruct (Hn f c Hin Hr)].
  - intros c Hc. destruct G as [G|(f & d & Hin & Hr & Hd)].
    + left. now rewrite <- G.
    + right. rewrite Hd in Hc. injection Hc as ->. exists f. split; assumption.
  - intros Hp. destruct G as [G|(f & d & _ & _ & Hd)]; rewrite ?G, ?Hd; [exact Hp | discriminate].
Qed.

(** Events that may come before the generation call: environment reads,
    messages, the key's configuration, the model listing and creation,
    and the existence checks and reads of the two target files. *)
Definition preliminary (e : event) : Prop :=
  match e with
  | EnvGet _ | Print _ | Configure _ | ListModels | NewModel _ => True
  | PathExists p | ReadFile p => p = "index.html" \/ p = "style.css"
  | Generate _ _ | WriteFile _ _ => False
  end.

Lemma pre_events_preliminary (w : world) (k : string) (fs : string -> option string) :
  Forall preliminary (pre_events w k fs).
Proof.
  unfold pre_events, listing_events, found_events, selection_events, read_events.
  destruct (catalog_error w), (first_available priority_models (supported_names (catalog w))),
    (fs (resolve (host w) "index.html")), (fs (resolve (host w) "style.css"));
  repeat match goal with
  | |- Forall _ (_ ++ _)%list => apply Forall_app; split
  | |- Forall _ (_ :: _) => constructor
  | |- Forall _ [] => constructor
  | |- Forall _ (map _ _) =>
      apply Forall_forall; intros ? (? & <- & _)%in_map_iff
  | |- preliminary _ => cbn; auto
  end.
Qed.

(** Nothing is written before the generation call: every [WriteFile] event
    comes after the [Generate] event carrying the chosen model and the
    prompt, and before that event the run only reads the environment,
    configures the key, lists and creates the model, prints, and checks
    and reads [index.html] and [style.css]; in particular it is the first
    generation call. *)
Theorem writes_follow_generation (w : world) (fs : string -> option string) (f c : string) :
  In (WriteFile f c) (log (fst (run w fs))) ->
  exists pre post, log (fst (run w fs)) = (pre ++ Generate (chosen w) (prompt_of w fs) :: post)%list
    /\ Forall preliminary pre /\ In (WriteFile f c) post.
Proof.
  intros Hw. destruct (run_shapes w fs) as [[Hb _]|(k & text & _ & E)].
  - destruct (benign_no_write _ f c Hb Hw).
  - rewrite E in *.
    destruct (perform_writes_effect (host w) (apply_writes text)
                (mk_state (pre_events w k fs ++ [Generate (chosen w) (prompt_of w fs);
                                                Print "Received response from Gemini."]) fs))
      as (evs & Hlog & _).
    rewrite Hlog in *; cbn [log] in *. rewrite <- app_assoc in *; cbn [app] in *.
    exists (pre_events w k fs), (Print "Received response from Gemini." :: evs).
    split; [reflexivity|]. split; [apply pre_events_preliminary|].
    apply in_app_or in Hw as [Hw|Hw].
    + destruct (benign_no_write _ f c (pre_events_benign w k fs) Hw).
    + destruct Hw as [Hw|Hw]; [discriminate | exact Hw].
Qed.

Lemma writes_follow_generation_witness :
  let w := mk_world [("GEMINI_API_KEY", "key"); ("ISSUE_NUMBER", "5")]
             [] None (fun _ _ => Some (py_join nl ["FILE: a.txt"; "```"; "hi"; "```"])) example_host in
  In (WriteFile "a.txt" "hi") (log (fst (run w (fun _ => None))))
  /\ exists pre post, log (fst (run w (fun _ => None)))
       = (pre ++ Generate (chosen w) (prompt_of w (fun _ => None)) :: post)%list
     /\ Forall preliminary pre /\ In (WriteFile "a.txt" "hi") post.
Proof.
  intros w.
  assert (H : In (WriteFile "a.txt" "hi") (log (fst (run w (fun _ => None))))).
  { vm_compute. tauto. }
  split; [exact H | exact (writes_follow_generation w (fun _ => None) "a.txt" "hi" H)].
Defined.









(** The model used is either the [gemini-pro] fallback or an entry of the
    priority list that the enumeration yielded with [generateContent]
    among its supported methods. *)
Theorem chosen_model_enumerated_or_fallback (w : world) :
  chosen w = fallback_model
  \/ (In (chosen w) priority_models
      /\ exists m, In m (catalog w) /\ name m = chosen w
                   /\ In "generateContent" (supported_generation_methods m)).
Proof.
  unfold chosen, selected.
  destruct (first_available priority_models (supported_names (catalog w))) as [p|] eqn:E;
    [right | now left].
  apply first_available_some in E as [Hp Ha]. split; [exact Hp|].
  unfold supported_names in Ha. apply in_map_iff in Ha as (m & Hn & Hm).
  apply filter_In in Hm as [Hm Hs]. exists m. split; [exact Hm|]. split; [exact Hn|].
  now apply mem_In.
Qed.

(** The values of [GITHUB_TOKEN], [REPO_NAME] and [ISSUE_NUMBER] do not
    influence the run: once the issue number parses, two environments that
    agree on [GEMINI_API_KEY] and [ISSUE_BODY] give the same run. *)
Theorem unused_settings_irrelevant (w : world) (env' : list (string * string))
    (fs : string -> option string) (k n n' : string) (z z' : Z) :
  lookup "GEMINI_API_KEY" (environ w) = Some k -> k <> EmptyString ->
  lookup "ISSUE_NUMBER" (environ w) = Some n -> parse_int n = Some z ->
  lookup "GEMINI_API_KEY" env' = Some k ->
  lookup "ISSUE_NUMBER" env' = Some n' -> parse_int n' = Some z' ->
  lookup "ISSUE_BODY" env' = lookup "ISSUE_BODY" (environ w) ->
  run (mk_world env' (catalog w) (catalog_error w) (reply w) (host w)) fs = run w fs.
Proof.
  intros Hk Hne Hn Hz Hk' Hn' Hz' Hb. unfold run.
  rewrite (main_generate_run w _ k n z Hk Hne Hn Hz).
  rewrite (main_generate_run (mk_world env' (catalog w) (catalog_error w) (reply w) (host w)) _ k n' z'
             Hk' Hne Hn' Hz').
  unfold pre_events, listing_events, prompt_of, chosen. cbn [environ catalog catalog_error reply files].
  now rewrite Hb.
Qed.

Lemma unused_settings_irrelevant_witness :
  let w := mk_world [("GEMINI_API_KEY", "key"); ("ISSUE_NUMBER", "5"); ("REPO_NAME", "a/b")]
             [] None (fun _ _ => None) example_host in
  run (mk_world [("ISSUE_NUMBER", "+1_000"); ("GEMINI_API_KEY", "key"); ("GITHUB_TOKEN", "t")]
         (catalog w) (catalog_error w) (reply w) (host w)) (fun _ => None)
  = run w (fun _ => None).
Proof.
  intros w. apply (unused_settings_irrelevant w _ _ "key" "5" "+1_000" 5%Z 1000%Z);
    [reflexivity | discriminate | reflexivity | reflexivity | reflexivity | reflexivity
    | reflexivity | reflexivity].
Defined.

(** Strings made of whitespace only. *)
Fixpoint all_space (s : string) : bool :=
  match s with
  | EmptyString => true
  | String c s' => is_space c && all_space s'
  end.

Lemma lstrip_spaces (ws r : string) : all_space ws = true -> lstrip (ws ++ r) = lstrip r.
Proof.
  induction ws as [|c ws IH]; intros H; [reflexivity|].
  cbn [all_space] in H. apply andb_prop in H as [Hc Hws].
  cbn [String.append lstrip]. rewrite Hc. now apply IH.
Qed.

Lemma indented_marker_content (ws r : string) :
  ws <> EmptyString -> all_space ws = true -> startswith file_marker r = true ->
  content_line (ws ++ r) = true.
Proof.
  intros Hne Hws Hr. destruct r as [|d r]; [discriminate|].
  cbn [startswith file_marker] in Hr. apply andb_prop in Hr as [Hd _].
  apply Ascii.eqb_eq in Hd; subst d.
  unfold content_line, strip. rewrite lstrip_spaces by exact Hws.
  destruct ws as [|c ws]; [congruence|].
  cbn [all_space] in Hws. apply andb_prop in Hws as [Hc _].
  assert (Hf : startswith file_marker (String c ws ++ String "F" r) = false).
  { cbn [String.append startswith file_marker].
    destruct (Ascii.eqb_spec "F" c) as [<-|]; [discriminate | reflexivity]. }
  rewrite Hf. reflexivity.
Qed.

(** The [FILE: ] test is made on the raw line while the fence test is made
    on the stripped line: inside an open block, a [FILE: ] line indented by
    any whitespace (such as the four spaces of the prompt's own example
    lines) is ordinary content and is kept in the block, whereas the same
    line unindented starts a new block. *)
Theorem indented_marker_kept_in_block (cur : option string) (buf rest : list string)
    (ws r : string) :
  ws <> EmptyString -> all_space ws = true -> startswith file_marker r = true ->
  scan (mk_scan cur true buf) ((ws ++ r) :: rest)
  = scan (mk_scan cur true (buf ++ [ws ++ r])) rest
  /\ scan (mk_scan cur true buf) (r :: rest)
     = scan (mk_scan (Some (marker_name r)) false []) rest.
Proof.
  intros Hne Hws Hr. split.
  - apply (scan_active_content cur buf [ws ++ r] rest).
    constructor; [now apply indented_marker_content | constructor].
  - now apply scan_marker.
Qed.

Lemma indented_marker_kept_in_block_witness :
  scan (mk_scan (Some "notes.md") true []) (("    " ++ "FILE: index.html") :: ["```"])
  = scan (mk_scan (Some "notes.md") true ([] ++ ["    " ++ "FILE: index.html"])) ["```"]
  /\ scan (mk_scan (Some "notes.md") true []) ("FILE: index.html" :: ["```"])
     = scan (mk_scan (Some (marker_name "FILE: index.html")) false []) ["```"].
Proof. apply indented_marker_kept_in_block; [discriminate | reflexivity | reflexivity]. Defined.
